(** * superduperdb.ext.jina.client: the Jina embeddings client

    A shallow embedding of [src/superduperdb/ext/jina/client.py]: the
    [JinaAPIClient] constructor and its two batch-encode operations,
    [encode_batch] (blocking, over a [requests] session) and
    [aencode_batch] (suspendable, over an [aiohttp] session), both wrapped
    by the module-level [retry] policy.

    Python values are modelled by the JSON fragment the client handles,
    exceptions by an inductive type, and the HTTP transport by a scripted
    fake: the k-th call to [post] yields the k-th scripted event, and every
    request is logged. *)

From Stdlib Require Import ZArith List String Ascii PrimFloat Lia Permutation Sorted.
From stdpp Require Import base list sorting strings gmap.

Set Warnings "-inexact-float,-register-all".
Local Open Scope string_scope.
Local Open Scope Z_scope.

(** ** Python values *)

(** What [json()] can hand to the client: the image of a JSON document
    under Python's decoder.  A dict is kept as its list of entries in
    insertion order (the decoder keeps the last of duplicated keys, so keys
    are distinct and first-match lookup is dict lookup). *)
Inductive json : Type :=
| JNull
| JBool (b : bool)
| JInt (n : Z)
| JFloat (x : float)
| JStr (s : string)
| JArr (xs : list json)
| JObj (kvs : list (string * json)).

(** Exception classes; an instance of a subclass counts as an instance of
    the class listed here, which is all [isinstance] looks at. *)
Inductive exn_class : Type :=
| ClientResponseError_      (* aiohttp *)
| ClientConnectionError_    (* aiohttp *)
| HTTPError_                (* requests.exceptions *)
| ConnectionError_          (* requests.exceptions *)
| JSONDecodeError_
| RuntimeError_
| KeyError_
| TypeError_
| MissingCredentialError_
| RetryExhaustedError_.

Inductive exn : Type :=
| ClientResponseError (status : Z)
| ClientConnectionError
| HTTPError (status : Z)
| ConnectionError
| JSONDecodeError
| RuntimeError (arg : json)
| KeyError (key : string)
| TypeError
| MissingCredentialError
| RetryExhaustedError (last : exn).

Definition class_of (e : exn) : exn_class :=
  match e with
  | ClientResponseError _ => ClientResponseError_
  | ClientConnectionError => ClientConnectionError_
  | HTTPError _ => HTTPError_
  | ConnectionError => ConnectionError_
  | JSONDecodeError => JSONDecodeError_
  | RuntimeError _ => RuntimeError_
  | KeyError _ => KeyError_
  | TypeError => TypeError_
  | MissingCredentialError => MissingCredentialError_
  | RetryExhaustedError _ => RetryExhaustedError_
  end.

Definition exn_class_eqb (a b : exn_class) : bool :=
  match a, b with
  | ClientResponseError_, ClientResponseError_
  | ClientConnectionError_, ClientConnectionError_
  | HTTPError_, HTTPError_
  | ConnectionError_, ConnectionError_
  | JSONDecodeError_, JSONDecodeError_
  | RuntimeError_, RuntimeError_
  | KeyError_, KeyError_
  | TypeError_, TypeError_
  | MissingCredentialError_, MissingCredentialError_
  | RetryExhaustedError_, RetryExhaustedError_ => true
  | _, _ => false
  end.

(** [isinstance(e, classes)] for a tuple of classes. *)
Definition isinstance (e : exn) (classes : list exn_class) : bool :=
  existsb (exn_class_eqb (class_of e)) classes.

(** The outcome of evaluating a Python expression: a value, a raised
    exception, or [OutOfModel] where the embedding does not follow Python
    (only [sorted] over keys that are not integers, see
    [py_sorted]); no theorem says anything about [OutOfModel]. *)
Inductive result (A : Type) : Type :=
| Ok (a : A)
| Raise (e : exn)
| OutOfModel.
Arguments Ok {A} a.
Arguments Raise {A} e.
Arguments OutOfModel {A}.

Definition rbind {A B} (r : result A) (k : A -> result B) : result B :=
  match r with
  | Ok a => k a
  | Raise e => Raise e
  | OutOfModel => OutOfModel
  end.

(** [[f(x) for x in xs]]: left to right, the first exception escapes. *)
Fixpoint rmap {A B} (f : A -> result B) (xs : list A) : result (list B) :=
  match xs with
  | [] => Ok []
  | x :: xs' =>
      rbind (f x) (fun y => rbind (rmap f xs') (fun ys => Ok (y :: ys)))
  end.

(** Dict lookup on the entry list. *)
Fixpoint assoc (k : string) (kvs : list (string * json)) : option json :=
  match kvs with
  | [] => None
  | (k', v) :: rest => if String.eqb k k' then Some v else assoc k rest
  end.

(** [k in v] for a string [k]: key membership on a dict, element equality
    on a list, substring on a string, TypeError on anything else. *)
Definition py_contains (k : string) (v : json) : result bool :=
  match v with
  | JObj kvs => Ok (match assoc k kvs with Some _ => true | None => false end)
  | JArr xs =>
      Ok (existsb (fun x => match x with JStr s => String.eqb s k | _ => false end) xs)
  | JStr s => Ok (match String.index 0 k s with Some _ => true | None => false end)
  | _ => Raise TypeError
  end.

(** [v[k]] for a string [k]: the entry of a dict or KeyError; lists and
    strings take integer subscripts only and the scalars take none, which
    is a TypeError either way. *)
Definition py_getitem (v : json) (k : string) : result json :=
  match v with
  | JObj kvs =>
      match assoc k kvs with
      | Some x => Ok x
      | None => Raise (KeyError k)
      end
  | _ => Raise TypeError
  end.

(** [list(v)]: the elements of a list, the keys of a dict, the characters
    of a string (one-character strings; the client subscripts each with a
    string next, which fails alike for any of them). *)
Definition py_iter (v : json) : result (list json) :=
  match v with
  | JArr xs => Ok xs
  | JObj kvs => Ok (map (fun kv => JStr (fst kv)) kvs)
  | JStr s => Ok (map (fun c => JStr (String c EmptyString)) (list_ascii_of_string s))
  | _ => Raise TypeError
  end.

(** ** [sorted(v, key=...)] *)

(** Python's [sorted] is stable and compares keys with [<] only.  On keys
    that are totally ordered a stable sort has one possible result
    ([stable_sort_unique] below), so the built-in is modelled by insertion
    from the right, each element going in front of the first element whose
    key is not smaller. *)
Fixpoint insert_by {A} (key : A -> Z) (x : A) (l : list A) : list A :=
  match l with
  | [] => [x]
  | y :: rest =>
      if key y <? key x then y :: insert_by key x rest else x :: l
  end.

Fixpoint sort_by {A} (key : A -> Z) (l : list A) : list A :=
  match l with
  | [] => []
  | x :: rest => insert_by key x (sort_by key rest)
  end.

(** Keys Python orders as integers ([bool] is a subclass of [int]). *)
Definition int_key (k : json) : option Z :=
  match k with
  | JInt n => Some n
  | JBool b => Some (Z.b2z b)
  | _ => None
  end.

Fixpoint int_keys (ks : list json) : option (list Z) :=
  match ks with
  | [] => Some []
  | k :: rest =>
      match int_key k, int_keys rest with
      | Some z, Some zs => Some (z :: zs)
      | _, _ => None
      end
  end.

(** [sorted(v, key=key)]: the elements of [v] are listed, [key] is applied
    to each of them in order (its first exception escapes), then the
    elements are sorted by key.  With fewer than two elements nothing is
    compared, whatever the keys are.  Two or more keys that are not all
    integers are left [OutOfModel]: Python orders floats, strings and
    lists as well, and its result on keys without a total order (NaN)
    depends on the run detection of its merge sort. *)
Definition py_sorted (v : json) (key : json -> result json) : result (list json) :=
  rbind (py_iter v) (fun xs =>
  rbind (rmap key xs) (fun ks =>
  match int_keys ks with
  | Some zs => Ok (map snd (sort_by fst (combine zs xs)))
  | None => if (length xs <=? 1)%nat then Ok xs else OutOfModel
  end)).

(** ** The transport and the world *)

Record request : Type := {
  url : string;
  headers : list (string * string);
  payload : json;
}.

(** A response object: its HTTP status and what its [json()] method
    gives, the decoded body or the exception of the decoder.  The
    decoders of requests and aiohttp do not agree on every body (content
    type, empty body); the field holds what the library of the operation
    at hand gives. *)
Record response : Type := {
  status : Z;
  json_body : result json;
}.

(** One call of [post] either raises or hands back a response.  The
    exception is the one of the library of the operation at hand:
    requests and aiohttp raise different classes for one network
    failure. *)
Inductive transport_event : Type :=
| Throws (e : exn)
| Replies (r : response).

(** The process environment, the scripted transport (event [k] answers
    the [k]-th request, counted from 0) and the log of the requests made
    so far, oldest first. *)
Record world : Type := {
  environ : gmap string string;
  script : nat -> transport_event;
  sent : list request;
}.

Definition M (A : Type) : Type := world -> result A * world.

Definition ret {A} (a : A) : M A := fun w => (Ok a, w).
Definition raise {A} (e : exn) : M A := fun w => (Raise e, w).
Definition lift {A} (r : result A) : M A := fun w => (r, w).
Definition bind {A B} (m : M A) (k : A -> M B) : M B :=
  fun w =>
    match m w with
    | (Ok a, w') => k a w'
    | (Raise e, w') => (Raise e, w')
    | (OutOfModel, w') => (OutOfModel, w')
    end.

Declare Scope py_scope.
Delimit Scope py_scope with py.
Notation "'let*' x ':=' m 'in' k" := (bind m (fun x => k))
  (at level 10, x name, m at level 100, k at level 200) : py_scope.
Notation "m ';;' k" := (bind m (fun _ => k))
  (at level 100, k at level 200, right associativity) : py_scope.
Local Open Scope py_scope.

(** [session.post(url, headers=..., json=...)] on the scripted transport.
    What the libraries check before they send (the header values, for
    one) is not modelled: every call reaches the transport. *)
Definition post (u : string) (hs : list (string * string)) (js : json) : M response :=
  fun w =>
    let w' := {| environ := environ w; script := script w;
                 sent := sent w ++ [{| url := u; headers := hs; payload := js |}] |} in
    match script w (length (sent w)) with
    | Throws e => (Raise e, w')
    | Replies r => (Ok r, w')
    end.

(** aiohttp's [raise_for_status]: ClientResponseError from status 400 up. *)
Definition raise_for_status (r : response) : result unit :=
  if 400 <=? status r then Raise (ClientResponseError (status r)) else Ok tt.

(** ** The retry policy *)

(** Modelled from the spec: the class [superduperdb.misc.retry.Retry] is
    not among the sources.  Section 4.2: the operation is executed; an
    error whose kind is among the transient kinds is retried, up to
    [max_attempts] attempts in total, the first included; any other error
    propagates at once; after the last attempt the last transient error
    propagates wrapped in RetryExhaustedError.  The operation is executed
    once even under [max_attempts = 0].  The backoff delay has no effect
    on outcomes and is left out. *)
Record Retry : Type := {
  exception_types : list exn_class;
  max_attempts : nat;
}.

Fixpoint attempt {A} (R : Retry) (retries_left : nat) (op : M A) : M A :=
  fun w =>
    match op w with
    | (Raise e, w') =>
        if isinstance e (exception_types R) then
          match retries_left with
          | O => (Raise (RetryExhaustedError e), w')
          | S n => attempt R n op w'
          end
        else (Raise e, w')
    | other => other
    end.

Definition with_retry {A} (R : Retry) (op : M A) : M A :=
  attempt R (max_attempts R - 1) op.

(** ** The client *)

Definition JINA_API_URL : string := "https://api.jina.ai/v1/embeddings".
Definition KEY_NAME : string := "JINA_API_KEY".

(** [retry = Retry(exception_types=(ClientResponseError,
    ClientConnectionError, HTTPError))]; the number of attempts comes from
    the configuration of the process and is a parameter here. *)
Definition retry (attempts : nat) : Retry :=
  {| exception_types := [ClientResponseError_; ClientConnectionError_; HTTPError_];
     max_attempts := attempts |}.

(** Modelled from the spec: [superduperdb.ext.utils.get_key] is not among
    the sources.  Section 4.1: the key name is looked up in the
    process-wide environment; MissingCredentialError when it yields no
    value; no side effects. *)
Definition get_key (key_name : string) : M string :=
  fun w =>
    match environ w !! key_name with
    | Some v => (Ok v, w)
    | None => (Raise MissingCredentialError, w)
    end.

(** The [requests] session of the client, reduced to the headers that
    [__init__] installs on it; the defaults that [requests.Session()]
    brings along are not listed. *)
Record Session : Type := {
  session_headers : list (string * string);
}.

Record JinaAPIClient : Type := {
  model_name : string;
  _session : Session;
  _headers : list (string * string);
}.

Definition default_model_name : string := "jina-embeddings-v2-base-en".

Definition __init__ (api_key : option string) (model : string) : M JinaAPIClient :=
  let* api_key :=
    match api_key with
    | None => get_key KEY_NAME
    | Some k => ret k
    end in
  let hs := [("Authorization", "Bearer " ++ api_key);
             ("Accept-Encoding", "identity");
             ("Content-type", "application/json")] in
  ret {| model_name := model;
         _session := {| session_headers := hs |};
         _headers := hs |}.

(** The body of [encode_batch], before the decorator. *)
Definition encode_batch_body (self : JinaAPIClient) (texts : list string)
  : M (list json) :=
  let* r := post JINA_API_URL (session_headers (_session self))
              (JObj [("input", JArr (map JStr texts));
                     ("model", JStr (model_name self))]) in
  let* response := lift (json_body r) in
  let* has_data := lift (py_contains "data" response) in
  if negb has_data then
    let* detail := lift (py_getitem response "detail") in
    raise (RuntimeError detail)
  else
    let* data := lift (py_getitem response "data") in
    let* sorted_embeddings :=
      lift (py_sorted data (fun e => py_getitem e "index")) in
    let* embeddings :=
      lift (rmap (fun result => py_getitem result "embedding") sorted_embeddings) in
    ret embeddings.

(** The body of [aencode_batch], before the decorator. *)
Definition aencode_batch_body (self : JinaAPIClient) (texts : list string)
  : M (list json) :=
  let payload := JObj [("model", JStr (model_name self));
                       ("input", JArr (map JStr texts))] in
  let* response := post JINA_API_URL (_headers self) payload in
  lift (raise_for_status response) ;;
  let* response_json := lift (json_body response) in
  let* has_data := lift (py_contains "data" response_json) in
  if negb has_data then
    let* detail := lift (py_getitem response_json "detail") in
    raise (RuntimeError detail)
  else
    let* data := lift (py_getitem response_json "data") in
    let* sorted_embeddings :=
      lift (py_sorted data (fun e => py_getitem e "index")) in
    let* embeddings :=
      lift (rmap (fun result => py_getitem result "embedding") sorted_embeddings) in
    ret embeddings.

(** [@retry def encode_batch] and [@retry async def aencode_batch]. *)
Definition encode_batch (attempts : nat) (self : JinaAPIClient)
  (texts : list string) : M (list json) :=
  with_retry (retry attempts) (encode_batch_body self texts).

Definition aencode_batch (attempts : nat) (self : JinaAPIClient)
  (texts : list string) : M (list json) :=
  with_retry (retry attempts) (aencode_batch_body self texts).

(** ** Derived forms used in the statements and proofs *)

(** The index and the embedding of a result item, when it has them. *)
Definition item_index (e : json) : option Z :=
  match py_getitem e "index" with
  | Ok k => int_key k
  | _ => None
  end.

Definition item_embedding (e : json) : option json :=
  match py_getitem e "embedding" with
  | Ok v => Some v
  | _ => None
  end.

Definition has_index (e : json) : bool :=
  match item_index e with
  | Some _ => true
  | None => false
  end.

(** A result item as the service documents it: a dict with an integer
    [index] and an [embedding]. *)
Definition is_item (e : json) : bool :=
  has_index e
  && match item_embedding e with
     | Some _ => true
     | None => false
     end.

Definition index_of (e : json) : Z := default 0 (item_index e).
Definition embedding_of (e : json) : json := default JNull (item_embedding e).

(** Lines 48-54 and 71-79 of the source, the same in both operations:
    from the decoded body to the embeddings. *)
Definition embeddings_of (response : json) : result (list json) :=
  rbind (py_contains "data" response) (fun has_data =>
  if negb has_data then
    rbind (py_getitem response "detail") (fun detail => Raise (RuntimeError detail))
  else
    rbind (py_getitem response "data") (fun data =>
    rbind (py_sorted data (fun e => py_getitem e "index")) (fun sorted_embeddings =>
    rmap (fun result => py_getitem result "embedding") sorted_embeddings))).

(** What one attempt makes of the transport event it meets. *)
Definition sync_outcome (ev : transport_event) : result (list json) :=
  match ev with
  | Throws e => Raise e
  | Replies r => rbind (json_body r) embeddings_of
  end.

Definition async_outcome (ev : transport_event) : result (list json) :=
  match ev with
  | Throws e => Raise e
  | Replies r =>
      rbind (raise_for_status r) (fun _ => rbind (json_body r) embeddings_of)
  end.

Definition sync_request (self : JinaAPIClient) (texts : list string) : request :=
  {| url := JINA_API_URL;
     headers := session_headers (_session self);
     payload := JObj [("input", JArr (map JStr texts));
                      ("model", JStr (model_name self))] |}.

Definition async_request (self : JinaAPIClient) (texts : list string) : request :=
  {| url := JINA_API_URL;
     headers := _headers self;
     payload := JObj [("model", JStr (model_name self));
                      ("input", JArr (map JStr texts))] |}.

(** The world after [k] more copies of [req] went out. *)
Definition logged (k : nat) (req : request) (w : world) : world :=
  {| environ := environ w; script := script w;
     sent := sent w ++ repeat req k |}.

(** An operation that sends [req] once and maps the event to its outcome. *)
Definition scripted {A} (f : transport_event -> result A) (req : request) : M A :=
  fun w => (f (script w (length (sent w))), logged 1 req w).

(** Whether an outcome is an error the policy retries. *)
Definition transient {A} (R : Retry) (r : result A) : bool :=
  match r with
  | Raise e => isinstance e (exception_types R)
  | _ => false
  end.

(** The number of requests a run has made. *)
Definition invocations {A} (w : world) (run : result A * world) : nat :=
  (length (sent (snd run)) - length (sent w))%nat.

(** Ascending by key. *)
Definition ascending {A} (key : A -> Z) (l : list A) : Prop :=
  StronglySorted (fun a b => key a <= key b) l.

(** Whether a value is a dict, and whether a dict is without the key [k]. *)
Definition is_object (v : json) : bool :=
  match v with
  | JObj _ => true
  | _ => false
  end.

Definition lacks (k : string) (v : json) : bool :=
  match v with
  | JObj kvs =>
      match assoc k kvs with
      | Some _ => false
      | None => true
      end
  | _ => false
  end.

Definition is_array (v : json) : bool :=
  match v with
  | JArr _ => true
  | _ => false
  end.

(** What a [data] that is not a list leads to: nothing to sort when it is
    an empty dict or an empty string, TypeError otherwise. *)
Definition non_list_data_outcome (data : json) : result (list json) :=
  match data with
  | JObj [] => Ok []
  | JStr EmptyString => Ok []
  | _ => Raise TypeError
  end.

(** The exceptions that the handling of a decoded body can raise. *)
Definition client_error (e : exn) : bool :=
  match e with
  | TypeError | KeyError _ | RuntimeError _ => true
  | _ => false
  end.

(** Two transport events that differ at most in the HTTP status. *)
Definition same_but_status (ev ev' : transport_event) : Prop :=
  match ev, ev' with
  | Throws e, Throws e' => e = e'
  | Replies r, Replies r' => json_body r = json_body r'
  | _, _ => False
  end.

(** Whether an exception is of a class listed in [retry] (line 14). *)
Definition listed (e : exn) : bool :=
  isinstance e [ClientResponseError_; ClientConnectionError_; HTTPError_].

(** The transient error in which an attempt ends at a transport event,
    if it does.  For both operations: an exception of a listed class
    raised by [post].  For [aencode_batch] also a response with a status
    of 400 or more, which [raise_for_status] turns into
    ClientResponseError; [encode_batch] has no such step. *)
Definition sync_failure (ev : transport_event) : option exn :=
  match ev with
  | Throws e => if listed e then Some e else None
  | Replies _ => None
  end.

Definition async_failure (ev : transport_event) : option exn :=
  match ev with
  | Throws e => if listed e then Some e else None
  | Replies r =>
      if 400 <=? status r then Some (ClientResponseError (status r)) else None
  end.

(** *** Fixtures for the concrete scenarios *)

(** The client [__init__] builds around the key [api_key]. *)
Definition client_with (api_key model : string) : JinaAPIClient :=
  let hs := [("Authorization", "Bearer " ++ api_key);
             ("Accept-Encoding", "identity");
             ("Content-type", "application/json")] in
  {| model_name := model;
     _session := {| session_headers := hs |};
     _headers := hs |}.

Definition example_client : JinaAPIClient := client_with "secret" default_model_name.

(** A fake transport that meets the first requests with the events of
    [evs], in order, and every later one with [ev]; nothing was sent yet
    and the environment is [env]. *)
Definition fake_transport (env : gmap string string)
  (evs : list transport_event) (ev : transport_event) : world :=
  {| environ := env; script := fun k => nth k evs ev; sent := [] |}.

(** A fake service that answers every request with the same event. *)
Definition fake_service (ev : transport_event) : world := fake_transport ∅ [] ev.

Definition reply (code : Z) (body : json) : transport_event :=
  Replies {| status := code; json_body := Ok body |}.

(** A process whose environment holds [JINA_API_KEY=from-env]. *)
Definition keyed_process : world :=
  fake_transport {[ KEY_NAME := "from-env" ]} [] (reply 200 (JObj [])).

(** A process whose environment does not hold the key. *)
Definition keyless_process : world :=
  fake_transport ∅ [] (reply 200 (JObj [])).

(** The service is unavailable once, then serves the embeddings. *)
Definition unavailable_once (served : json) : world :=
  fake_transport ∅ [reply 503 (JObj [("detail", JStr "Service Unavailable")])]
    (reply 200 served).

(** The service limits the rate once, the connection drops once, then
    the service serves the embeddings. *)
Definition limited_then_dropped (served : json) : world :=
  fake_transport ∅ [reply 429 (JObj [("detail", JStr "rate limit exceeded")]);
                    Throws ClientConnectionError]
    (reply 200 served).

(** The transport fails twice, then the service serves the embeddings. *)
Definition fails_twice (served : json) : world :=
  fake_transport ∅ [Throws (HTTPError 503); Throws ClientConnectionError]
    (reply 200 served).

(** [{"data": [{"index":1,"embedding":[0.2]}, {"index":0,"embedding":[0.1]}]}] *)
Definition shuffled_body : json :=
  JObj [("data", JArr [JObj [("index", JInt 1); ("embedding", JArr [JFloat 0.2])];
                       JObj [("index", JInt 0); ("embedding", JArr [JFloat 0.1])]])].

(** ** The sort *)

Section Sort.
Context {A : Type} (key : A -> Z).

Lemma insert_by_perm x l : Permutation (insert_by key x l) (x :: l).
Proof.
  induction l as [|y l IH]; simpl; [done|].
  destruct (key y <? key x); [|done].
  rewrite IH. apply perm_swap.
Qed.

Lemma sort_by_perm l : Permutation (sort_by key l) l.
Proof.
  induction l as [|x l IH]; simpl; [done|].
  rewrite insert_by_perm. by constructor.
Qed.

Lemma sort_by_length l : length (sort_by key l) = length l.
Proof. apply Permutation_length, sort_by_perm. Qed.

Lemma insert_by_ascending x l :
  ascending key l -> ascending key (insert_by key x l).
Proof.
  unfold ascending. induction 1 as [|y l Hs IH Hy]; simpl.
  - repeat constructor.
  - destruct (Z.ltb_spec (key y) (key x)) as [Hlt|Hge].
    + constructor; [done|].
      apply (Permutation_Forall (Permutation_sym (insert_by_perm x l))).
      constructor; [lia | done].
    + constructor; [by constructor|].
      constructor; [done|].
      eapply Forall_impl; [exact Hy|]. simpl. intros; lia.
Qed.

Lemma sort_by_ascending l : ascending key (sort_by key l).
Proof.
  induction l as [|x l IH]; simpl; [constructor|].
  by apply insert_by_ascending.
Qed.

(** Sorting a list that is in order gives the list back. *)
Lemma sort_by_ascending_id l : ascending key l -> sort_by key l = l.
Proof.
  unfold ascending. induction 1 as [|x l Hs IH Hx]; simpl; [done|].
  rewrite IH. destruct Hx as [|y l' Hxy _]; simpl; [done|].
  destruct (Z.ltb_spec (key y) (key x)); [lia | done].
Qed.

Lemma sort_by_idempotent l : sort_by key (sort_by key l) = sort_by key l.
Proof. apply sort_by_ascending_id, sort_by_ascending. Qed.

(** Stability: among the items of one key the order is kept. *)
Lemma insert_by_filter k x l :
  filter (fun a => key a =? k) (insert_by key x l)
  = filter (fun a => key a =? k) (x :: l).
Proof.
  induction l as [|y l IH]; [done|].
  simpl insert_by. destruct (Z.ltb_spec (key y) (key x)) as [Hlt|Hge]; [|done].
  rewrite (filter_cons _ y (insert_by _ _ _)), IH.
  rewrite !filter_cons.
  destruct (decide (key x =? k)) as [Hx|Hx], (decide (key y =? k)) as [Hy|Hy];
    try done.
  apply Is_true_true in Hx, Hy. lia.
Qed.

Lemma sort_by_stable k l :
  filter (fun a => key a =? k) (sort_by key l) = filter (fun a => key a =? k) l.
Proof.
  induction l as [|x l IH]; [done|].
  simpl sort_by. rewrite insert_by_filter, !filter_cons, IH. done.
Qed.
End Sort.

Section SortUnique.
Context {A : Type} (key : A -> Z).

Lemma ascending_filter_below k x l :
  ascending key (x :: l) -> k < key x ->
  filter (fun a => key a =? k) (x :: l) = [].
Proof.
  intros Hs Hk. apply StronglySorted_inv in Hs as [_ Hx].
  assert (Hall : Forall (fun a => k < key a) (x :: l)).
  { constructor; [done|]. eapply Forall_impl; [exact Hx|]. simpl. intros; lia. }
  clear -Hall. induction Hall as [|y l' Hy _ IH]; [done|].
  rewrite filter_cons. destruct (decide (key y =? k)) as [H|H]; [|done].
  apply Is_true_true in H. lia.
Qed.

(** Two lists in ascending order that list the items of each key in the
    same order are the same list. *)
Lemma ascending_stable_eq l1 : forall l2,
  ascending key l1 -> ascending key l2 ->
  (forall k, filter (fun a => key a =? k) l1 = filter (fun a => key a =? k) l2) ->
  l1 = l2.
Proof.
  induction l1 as [|x l1 IH]; intros l2 H1 H2 Hf.
  - destruct l2 as [|y l2]; [done|].
    specialize (Hf (key y)). rewrite filter_cons in Hf.
    destruct (decide (key y =? key y)) as [|Hn]; [done|].
    exfalso. apply Hn, Is_true_true. lia.
  - destruct l2 as [|y l2].
    + specialize (Hf (key x)). rewrite filter_cons in Hf.
      destruct (decide (key x =? key x)) as [|Hn]; [done|].
      exfalso. apply Hn, Is_true_true. lia.
    + assert (Hkey : key x = key y).
      { destruct (Z.lt_trichotomy (key x) (key y)) as [Hlt|[Heq|Hgt]]; [|done|].
        - pose proof (Hf (key x)) as Hx.
          rewrite (ascending_filter_below (key x) y l2 H2 Hlt) in Hx.
          rewrite filter_cons in Hx.
          destruct (decide (key x =? key x)) as [|Hn]; [done|].
          exfalso. apply Hn, Is_true_true. lia.
        - pose proof (Hf (key y)) as Hy.
          rewrite (ascending_filter_below (key y) x l1 H1 Hgt) in Hy.
          rewrite filter_cons in Hy.
          destruct (decide (key y =? key y)) as [|Hn]; [done|].
          exfalso. apply Hn, Is_true_true. lia. }
      assert (Hhead : x = y).
      { pose proof (Hf (key x)) as Hx. rewrite !filter_cons in Hx.
        destruct (decide (key x =? key x)) as [|Hn];
          [|exfalso; apply Hn, Is_true_true; lia].
        destruct (decide (key y =? key x)) as [|Hn];
          [|exfalso; apply Hn, Is_true_true; lia].
        congruence. }
      subst y. f_equal.
      apply IH.
      * by apply StronglySorted_inv in H1 as [? _].
      * by apply StronglySorted_inv in H2 as [? _].
      * intros k. specialize (Hf k). rewrite !filter_cons in Hf.
        destruct (decide (key x =? k)); congruence.
Qed.

(** Any stable sort by key returns what [sort_by] returns: the model
    of the built-in does not depend on the algorithm chosen. *)
Lemma stable_sort_unique l l' :
  ascending key l' ->
  (forall k, filter (fun a => key a =? k) l' = filter (fun a => key a =? k) l) ->
  l' = sort_by key l.
Proof.
  intros Hs Hf. apply ascending_stable_eq; [done | apply sort_by_ascending |].
  intros k. by rewrite Hf, sort_by_stable.
Qed.
End SortUnique.

(** ** [sorted] on result items *)

Lemma insert_by_tagged {A} (key : A -> Z) x l :
  insert_by fst (key x, x) (map (fun a => (key a, a)) l)
  = map (fun a => (key a, a)) (insert_by key x l).
Proof.
  induction l as [|y l IH]; [done|].
  simpl. destruct (key y <? key x); [|done].
  simpl. by rewrite IH.
Qed.

Lemma sort_by_tagged {A} (key : A -> Z) (l : list A) :
  map snd (sort_by fst (combine (map key l) l)) = sort_by key l.
Proof.
  assert (Hc : combine (map key l) l = map (fun a => (key a, a)) l).
  { induction l as [|x l IH]; [done|]. simpl. by rewrite IH. }
  rewrite Hc. clear Hc.
  assert (Hs : sort_by fst (map (fun a => (key a, a)) l)
               = map (fun a => (key a, a)) (sort_by key l)).
  { induction l as [|x l IH]; [done|]. simpl. by rewrite IH, insert_by_tagged. }
  rewrite Hs, map_map. simpl. apply map_id.
Qed.

Lemma has_index_index e : has_index e = true -> item_index e = Some (index_of e).
Proof.
  unfold has_index, index_of. destruct (item_index e); [done|]. discriminate.
Qed.

Lemma is_item_has_index e : is_item e = true -> has_index e = true.
Proof. by intros [? _]%andb_prop. Qed.

Lemma is_item_embedding e :
  is_item e = true -> py_getitem e "embedding" = Ok (embedding_of e).
Proof.
  intros [_ He]%andb_prop. unfold embedding_of, item_embedding in *.
  destruct (py_getitem e "embedding"); simpl; done.
Qed.

Lemma forallb_impl {A} (p q : A -> bool) l :
  (forall x, p x = true -> q x = true) ->
  forallb p l = true -> forallb q l = true.
Proof. rewrite !forallb_forall. auto. Qed.

Lemma index_keys items :
  forallb has_index items = true ->
  exists ks, rmap (fun e => py_getitem e "index") items = Ok ks
             /\ int_keys ks = Some (map index_of items).
Proof.
  induction items as [|e items IH]; simpl; [by exists []|].
  intros [He Hrest]%andb_prop. destruct (IH Hrest) as (ks & Hks & Hzs).
  pose proof (has_index_index e He) as Hi. unfold item_index in Hi.
  destruct (py_getitem e "index") as [k| |]; try discriminate.
  exists (k :: ks). simpl. rewrite Hks. simpl. by rewrite Hi, Hzs.
Qed.

(** On items with an integer index
    [sorted(data, key=lambda e: e["index"])] is the stable sort by index. *)
Lemma py_sorted_items items :
  forallb has_index items = true ->
  py_sorted (JArr items) (fun e => py_getitem e "index")
  = Ok (sort_by index_of items).
Proof.
  intros Hitems. destruct (index_keys items Hitems) as (ks & Hks & Hzs).
  unfold py_sorted. simpl. rewrite Hks. simpl. rewrite Hzs.
  by rewrite sort_by_tagged.
Qed.

Lemma forallb_perm {A} (p : A -> bool) l l' :
  Permutation l l' -> forallb p l = true -> forallb p l' = true.
Proof.
  intros HP. rewrite !forallb_forall. intros H x Hx.
  apply H. by apply (Permutation_in _ (Permutation_sym HP)).
Qed.

Lemma rmap_embeddings items :
  forallb is_item items = true ->
  rmap (fun result => py_getitem result "embedding") items
  = Ok (map embedding_of items).
Proof.
  induction items as [|e items IH]; simpl; [done|].
  intros [He Hrest]%andb_prop.
  by rewrite (is_item_embedding e He), (IH Hrest).
Qed.

(** The embeddings of a response whose [data] is a list of well-formed
    items. *)
Lemma embeddings_of_items kvs items :
  assoc "data" kvs = Some (JArr items) ->
  forallb is_item items = true ->
  embeddings_of (JObj kvs) = Ok (map embedding_of (sort_by index_of items)).
Proof.
  intros Hdata Hitems. unfold embeddings_of. simpl. rewrite Hdata. simpl.
  rewrite (py_sorted_items items (forallb_impl _ _ _ is_item_has_index Hitems)).
  simpl. apply rmap_embeddings.
  apply (forallb_perm _ items); [|done].
  apply Permutation_sym, sort_by_perm.
Qed.

(** ** One attempt *)

Lemma bind_lift {A B} (r : result A) (k : A -> M B) w :
  bind (lift r) k w
  = match r with
    | Ok a => k a w
    | Raise e => (Raise e, w)
    | OutOfModel => (OutOfModel, w)
    end.
Proof. by destruct r. Qed.

(** From the decoded body on, an attempt leaves the world alone. *)
Lemma decoded_tail (response : json) w :
  (let* has_data := lift (py_contains "data" response) in
   if negb has_data then
     let* detail := lift (py_getitem response "detail") in
     raise (RuntimeError detail)
   else
     let* data := lift (py_getitem response "data") in
     let* sorted_embeddings :=
       lift (py_sorted data (fun e => py_getitem e "index")) in
     let* embeddings :=
       lift (rmap (fun result => py_getitem result "embedding") sorted_embeddings) in
     ret embeddings) w
  = (embeddings_of response, w).
Proof.
  unfold embeddings_of. rewrite bind_lift.
  destruct (py_contains "data" response) as [has| |]; simpl; try done.
  destruct has; simpl.
  - rewrite bind_lift. destruct (py_getitem response "data"); simpl; try done.
    rewrite bind_lift. destruct (py_sorted _ _); simpl; try done.
    rewrite bind_lift. by destruct (rmap _ _).
  - rewrite bind_lift. by destruct (py_getitem response "detail").
Qed.

Lemma encode_batch_body_scripted self texts w :
  encode_batch_body self texts w
  = scripted sync_outcome (sync_request self texts) w.
Proof.
  unfold encode_batch_body, scripted, sync_outcome, sync_request, logged.
  unfold bind at 1. unfold post. simpl.
  destruct (script w (length (sent w))) as [e|r]; [done|].
  rewrite bind_lift. destruct (json_body r) as [response| |]; simpl; try done.
  apply decoded_tail.
Qed.

Lemma aencode_batch_body_scripted self texts w :
  aencode_batch_body self texts w
  = scripted async_outcome (async_request self texts) w.
Proof.
  unfold aencode_batch_body, scripted, async_outcome, async_request, logged.
  unfold bind at 1. unfold post. simpl.
  destruct (script w (length (sent w))) as [e|r]; [done|].
  rewrite bind_lift. destruct (raise_for_status r) as [[]| |]; simpl; try done.
  rewrite bind_lift. destruct (json_body r) as [response| |]; simpl; try done.
  apply decoded_tail.
Qed.

(** With a status below 400 the two operations treat an event alike. *)
Lemma async_outcome_ok_status r :
  status r < 400 -> async_outcome (Replies r) = sync_outcome (Replies r).
Proof.
  intros Hs. unfold async_outcome, sync_outcome, raise_for_status.
  destruct (Z.leb_spec 400 (status r)); [lia | done].
Qed.

(** ** The retry loop over a scripted operation *)

Lemma attempt_ext {A} R n (op op' : M A) :
  (forall w, op w = op' w) -> forall w, attempt R n op w = attempt R n op' w.
Proof.
  intros Hop. induction n as [|n IH]; intros w; simpl; rewrite Hop;
    destruct (op' w) as [[a|e|] w']; try done;
    destruct (isinstance e (exception_types R)); done.
Qed.

Lemma attempt_unfold {A} R n (op : M A) w :
  attempt R n op w
  = match op w with
    | (Raise e, w') =>
        if isinstance e (exception_types R) then
          match n with
          | O => (Raise (RetryExhaustedError e), w')
          | S n' => attempt R n' op w'
          end
        else (Raise e, w')
    | other => other
    end.
Proof. by destruct n. Qed.

Lemma attempt_final {A} R n (op : M A) w :
  transient R (fst (op w)) = false -> attempt R n op w = op w.
Proof.
  destruct n; simpl; destruct (op w) as [[a|e|] w']; simpl; try done;
    by intros ->.
Qed.

Lemma logged_sent k req w :
  length (sent (logged k req w)) = (length (sent w) + k)%nat.
Proof. simpl. by rewrite length_app, repeat_length. Qed.

Lemma logged_logged a b req w :
  logged a req (logged b req w) = logged (b + a) req w.
Proof. unfold logged. simpl. by rewrite <- app_assoc, repeat_app. Qed.

Lemma invocations_logged {A} (r : result A) k req w :
  invocations w (r, logged k req w) = k.
Proof. unfold invocations. simpl snd. rewrite logged_sent. lia. Qed.

Lemma scripted_run {A} (f : transport_event -> result A) req w :
  scripted f req w = (f (script w (length (sent w))), logged 1 req w).
Proof. done. Qed.

Section Scripted.
Context {A : Type} (f : transport_event -> result A) (R : Retry).

(** [N] transient failures, then an outcome that is not retried: with
    [N] retries or more in hand the loop ends on that outcome after
    [N + 1] requests. *)
Lemma attempt_after_failures req N : forall n w (errs : nat -> exn),
  (forall k, (k < N)%nat ->
     f (script w (length (sent w) + k)) = Raise (errs k)
     /\ isinstance (errs k) (exception_types R) = true) ->
  transient R (f (script w (length (sent w) + N))) = false ->
  (N <= n)%nat ->
  attempt R n (scripted f req) w
  = (f (script w (length (sent w) + N)), logged (N + 1) req w).
Proof.
  induction N as [|N IH]; intros n w errs Hfail Hlast Hn.
  - rewrite Nat.add_0_r in *. by rewrite attempt_final.
  - destruct n as [|n]; [lia|].
    destruct (Hfail 0%nat ltac:(lia)) as [H0 Ht0].
    rewrite Nat.add_0_r in H0.
    rewrite attempt_unfold, scripted_run, H0, Ht0.
    rewrite (IH n (logged 1 req w) (fun k => errs (S k))).
    + rewrite logged_sent, logged_logged.
      by replace (length (sent w) + 1 + N)%nat with (length (sent w) + S N)%nat by lia.
    + intros k Hk. rewrite logged_sent. simpl script.
      replace (length (sent w) + 1 + k)%nat with (length (sent w) + S k)%nat by lia.
      apply Hfail. lia.
    + rewrite logged_sent. simpl script.
      by replace (length (sent w) + 1 + N)%nat with (length (sent w) + S N)%nat by lia.
    + lia.
Qed.

(** Transient failures on every attempt: the last one escapes wrapped,
    after [n + 1] requests. *)
Lemma attempt_exhausted req : forall n w (errs : nat -> exn),
  (forall k, (k <= n)%nat ->
     f (script w (length (sent w) + k)) = Raise (errs k)
     /\ isinstance (errs k) (exception_types R) = true) ->
  attempt R n (scripted f req) w
  = (Raise (RetryExhaustedError (errs n)), logged (n + 1) req w).
Proof.
  induction n as [|n IH]; intros w errs Hfail;
    destruct (Hfail 0%nat ltac:(lia)) as [H0 Ht0];
    rewrite Nat.add_0_r in H0; rewrite attempt_unfold, scripted_run, H0, Ht0.
  - done.
  - rewrite (IH (logged 1 req w) (fun k => errs (S k))).
    + by rewrite logged_logged.
    + intros k Hk. rewrite logged_sent. simpl script.
      replace (length (sent w) + 1 + k)%nat with (length (sent w) + S k)%nat by lia.
      apply Hfail. lia.
Qed.

(** Every request of the loop is [req], and there is at least one. *)
Lemma attempt_requests req : forall n w,
  exists k, (1 <= k <= n + 1)%nat
            /\ snd (attempt R n (scripted f req) w) = logged k req w.
Proof.
  induction n as [|n IH]; intros w; rewrite attempt_unfold, scripted_run.
  - exists 1%nat. split; [lia|].
    destruct (f _) as [a|e|]; try done.
    by destruct (isinstance e (exception_types R)).
  - destruct (f _) as [a|e|]; try (exists 1%nat; split; [lia | done]).
    destruct (isinstance e (exception_types R));
      [|exists 1%nat; split; [lia | done]].
    destruct (IH (logged 1 req w)) as (k & Hk & Hsnd).
    exists (1 + k)%nat. split; [lia|]. by rewrite Hsnd, logged_logged.
Qed.

End Scripted.

(** The outcome of the loop is read off the script; the request sent has
    no part in it. *)
Lemma attempt_outcome_script {A} (f f' : transport_event -> result A) R req req' :
  forall n w w',
    script w = script w' -> length (sent w) = length (sent w') ->
    (forall k, f (script w k) = f' (script w k)) ->
    fst (attempt R n (scripted f req) w) = fst (attempt R n (scripted f' req') w').
Proof.
  induction n as [|n IH]; intros w w' Hs Hl Hf;
    rewrite (attempt_unfold _ _ _ w), (attempt_unfold _ _ _ w');
    rewrite !scripted_run, Hf, Hs, Hl; destruct (f' _) as [a|e|]; try done;
    destruct (isinstance e (exception_types R)); try done.
  apply IH; [done | by rewrite !logged_sent, Hl | done].
Qed.

Lemma encode_batch_scripted attempts self texts w :
  encode_batch attempts self texts w
  = attempt (retry attempts) (attempts - 1)
      (scripted sync_outcome (sync_request self texts)) w.
Proof.
  unfold encode_batch, with_retry. simpl max_attempts.
  apply attempt_ext, encode_batch_body_scripted.
Qed.

Lemma aencode_batch_scripted attempts self texts w :
  aencode_batch attempts self texts w
  = attempt (retry attempts) (attempts - 1)
      (scripted async_outcome (async_request self texts)) w.
Proof.
  unfold aencode_batch, with_retry. simpl max_attempts.
  apply attempt_ext, aencode_batch_body_scripted.
Qed.

(** ** Outcomes of the decorated operations *)

(** When the first attempt does not end in a transient error, it is the
    only one. *)
Lemma encode_batch_first self texts attempts w :
  transient (retry attempts) (sync_outcome (script w (length (sent w)))) = false ->
  encode_batch attempts self texts w
  = (sync_outcome (script w (length (sent w))), logged 1 (sync_request self texts) w).
Proof.
  intros Ht. rewrite encode_batch_scripted, attempt_final; by rewrite scripted_run.
Qed.

Lemma aencode_batch_first self texts attempts w :
  transient (retry attempts) (async_outcome (script w (length (sent w)))) = false ->
  aencode_batch attempts self texts w
  = (async_outcome (script w (length (sent w))), logged 1 (async_request self texts) w).
Proof.
  intros Ht. rewrite aencode_batch_scripted, attempt_final; by rewrite scripted_run.
Qed.

(** A response whose [data] lists well-formed items is answered with
    their embeddings in index order, after one request. *)
Lemma encode_batch_items attempts self texts w r kvs items :
  script w (length (sent w)) = Replies r ->
  json_body r = Ok (JObj kvs) ->
  assoc "data" kvs = Some (JArr items) ->
  forallb is_item items = true ->
  encode_batch attempts self texts w
  = (Ok (map embedding_of (sort_by index_of items)),
     logged 1 (sync_request self texts) w).
Proof.
  intros Hev Hbody Hdata Hitems.
  assert (Hout : sync_outcome (script w (length (sent w)))
                 = Ok (map embedding_of (sort_by index_of items))).
  { rewrite Hev. simpl. rewrite Hbody. simpl. by apply embeddings_of_items. }
  rewrite encode_batch_first; rewrite Hout; done.
Qed.

Lemma aencode_batch_items attempts self texts w r kvs items :
  script w (length (sent w)) = Replies r ->
  status r < 400 ->
  json_body r = Ok (JObj kvs) ->
  assoc "data" kvs = Some (JArr items) ->
  forallb is_item items = true ->
  aencode_batch attempts self texts w
  = (Ok (map embedding_of (sort_by index_of items)),
     logged 1 (async_request self texts) w).
Proof.
  intros Hev Hst Hbody Hdata Hitems.
  assert (Hout : async_outcome (script w (length (sent w)))
                 = Ok (map embedding_of (sort_by index_of items))).
  { rewrite Hev, async_outcome_ok_status by done. simpl. rewrite Hbody. simpl.
    by apply embeddings_of_items. }
  rewrite aencode_batch_first; rewrite Hout; done.
Qed.

Lemma seq_ascending j n : StronglySorted Z.le (map Z.of_nat (seq j n)).
Proof.
  revert j. induction n as [|n IH]; intros j; simpl; constructor; [apply IH|].
  apply Forall_forall. intros z Hz%list_elem_of_In.
  apply in_map_iff in Hz as [i [<- [Hi _]%in_seq]]. lia.
Qed.

(** In index order, the item of index [i] of a response with one item
    per position sits at position [i]. *)
Lemma sort_by_position (items : list json) n e :
  Permutation (map index_of items) (map Z.of_nat (seq 0 n)) ->
  e ∈ items ->
  sort_by index_of items !! Z.to_nat (index_of e) = Some e.
Proof.
  intros Hperm He.
  set (s := sort_by index_of items).
  assert (Hkeys : map index_of s = map Z.of_nat (seq 0 n)).
  { apply (StronglySorted_unique Z.le).
    - apply (StronglySorted_fmap index_of (fun a b => index_of a <= index_of b) Z.le);
        [done | apply sort_by_ascending].
    - apply seq_ascending.
    - rewrite <- Hperm. apply Permutation_map, sort_by_perm. }
  assert (Hs : e ∈ s).
  { unfold s. by rewrite (sort_by_perm index_of items). }
  apply list_elem_of_lookup in Hs as [j Hj].
  assert (Hij : index_of e = Z.of_nat j).
  { assert (Hl : (index_of <$> s) !! j = Some (index_of e)).
    { by rewrite list_lookup_fmap, Hj. }
    change (index_of <$> s) with (map index_of s) in Hl. rewrite Hkeys in Hl.
    change (map Z.of_nat (seq 0 n)) with (Z.of_nat <$> seq 0 n) in Hl.
    rewrite list_lookup_fmap in Hl.
    destruct (seq 0 n !! j) as [j'|] eqn:Hseq; [|done].
    apply lookup_seq in Hseq as [-> _]. simpl in Hl. congruence. }
  rewrite Hij, Nat2Z.id. exact Hj.
Qed.

(** ** The claims *)

(** C1: when the [data] of the parsed response holds one well-formed item
    per input position (its indices are a permutation of
    [0 .. len(texts)-1]), [encode_batch] and [aencode_batch] return the
    [embedding] fields in ascending order of [index]: position [i] of the
    result is the embedding of the item whose index is [i].  The scenario
    of the specification (input [["a", "b"]], items of index 1 then 0,
    result [[[0.1], [0.2]]]) is the instance proved right after. *)
Theorem encode_batch_orders_by_index attempts self texts w r kvs items :
  script w (length (sent w)) = Replies r ->
  json_body r = Ok (JObj kvs) ->
  assoc "data" kvs = Some (JArr items) ->
  forallb is_item items = true ->
  Permutation (map index_of items) (map Z.of_nat (seq 0 (length texts))) ->
  let embs := map embedding_of (sort_by index_of items) in
  fst (encode_batch attempts self texts w) = Ok embs
  /\ (status r < 400 -> fst (aencode_batch attempts self texts w) = Ok embs)
  /\ ascending index_of (sort_by index_of items)
  /\ length embs = length texts
  /\ (forall e, e ∈ items ->
        embs !! Z.to_nat (index_of e) = Some (embedding_of e)).
Proof.
  intros Hev Hbody Hdata Hitems Hperm embs. repeat split.
  - by rewrite (encode_batch_items _ _ _ _ r kvs items).
  - intros Hst. by rewrite (aencode_batch_items _ _ _ _ r kvs items).
  - apply sort_by_ascending.
  - unfold embs. rewrite length_map, sort_by_length.
    apply Permutation_length in Hperm. by rewrite !length_map, length_seq in Hperm.
  - intros e He. unfold embs.
    change (map embedding_of (sort_by index_of items))
      with (embedding_of <$> sort_by index_of items).
    by rewrite list_lookup_fmap, (sort_by_position items (length texts) e).
Qed.

Lemma orders_by_index_scenario :
  fst (encode_batch 3 example_client ["a"; "b"] (fake_service (reply 200 shuffled_body)))
  = Ok [JArr [JFloat 0.1]; JArr [JFloat 0.2]]
  /\ fst (aencode_batch 3 example_client ["a"; "b"] (fake_service (reply 200 shuffled_body)))
     = Ok [JArr [JFloat 0.1]; JArr [JFloat 0.2]].
Proof.
  destruct (encode_batch_orders_by_index 3 example_client ["a"; "b"]
              (fake_service (reply 200 shuffled_body))
              {| status := 200; json_body := Ok shuffled_body |}
              [("data", JArr [JObj [("index", JInt 1); ("embedding", JArr [JFloat 0.2])];
                              JObj [("index", JInt 0); ("embedding", JArr [JFloat 0.1])]])]
              [JObj [("index", JInt 1); ("embedding", JArr [JFloat 0.2])];
               JObj [("index", JInt 0); ("embedding", JArr [JFloat 0.1])]]
              eq_refl eq_refl eq_refl eq_refl (perm_swap 0 1 []))
    as (Hsync & Hasync & _).
  split; [exact Hsync | apply Hasync; reflexivity].
Defined.

(** On a transport whose responses all carry a status below 400 the two
    operations have the same outcome.  This is a statement about one
    scripted transport met by both operations: each event stands for an
    exception or a decoded body that requests and aiohttp would both
    produce. *)
Lemma encode_batch_aencode_batch_agree attempts self texts w :
  (forall k r, script w k = Replies r -> status r < 400) ->
  fst (encode_batch attempts self texts w) = fst (aencode_batch attempts self texts w).
Proof.
  intros Hok. rewrite encode_batch_scripted, aencode_batch_scripted.
  apply attempt_outcome_script; try done.
  intros k. destruct (script w k) as [e|r] eqn:Hev; [done|].
  symmetry. apply async_outcome_ok_status. by apply (Hok k).
Qed.

(** C2, at its failing input: the service answers the first request with
    status 503 and the body [{"detail": "Service Unavailable"}] and every
    later one with the embeddings.  [encode_batch] never looks at the
    status: it decodes the body and raises RuntimeError at once.
    [aencode_batch] raises ClientResponseError in [raise_for_status],
    which the policy retries, and returns the embeddings. *)
Theorem encode_batch_aencode_batch_diverge :
  let w := unavailable_once shuffled_body in
  fst (encode_batch 3 example_client ["a"; "b"] w)
  = Raise (RuntimeError (JStr "Service Unavailable"))
  /\ invocations w (encode_batch 3 example_client ["a"; "b"] w) = 1%nat
  /\ fst (aencode_batch 3 example_client ["a"; "b"] w)
     = Ok [JArr [JFloat 0.1]; JArr [JFloat 0.2]]
  /\ invocations w (aencode_batch 3 example_client ["a"; "b"] w) = 2%nat.
Proof. repeat split. Qed.

Lemma sync_failure_outcome attempts ev e :
  sync_failure ev = Some e ->
  sync_outcome ev = Raise e
  /\ isinstance e (exception_types (retry attempts)) = true.
Proof.
  destruct ev as [e'|r]; simpl; [|discriminate].
  unfold listed. destruct (isinstance e' _) eqn:Hcls; [|discriminate].
  by intros [= <-].
Qed.

Lemma async_failure_outcome attempts ev e :
  async_failure ev = Some e ->
  async_outcome ev = Raise e
  /\ isinstance e (exception_types (retry attempts)) = true.
Proof.
  destruct ev as [e'|r]; simpl.
  - unfold listed. destruct (isinstance e' _) eqn:Hcls; [|discriminate].
    by intros [= <-].
  - unfold raise_for_status. destruct (400 <=? status r); [|discriminate].
    by intros [= <-].
Qed.

(** [N] transient failures and then a result, against a limit of
    [max 1 attempts] attempts. *)
Lemma retry_limit {A} (f : transport_event -> result A) req attempts w N
  (errs : nat -> exn) (v : A) :
  (forall k, (k < N)%nat ->
     f (script w (length (sent w) + k)) = Raise (errs k)
     /\ isinstance (errs k) (exception_types (retry attempts)) = true) ->
  f (script w (length (sent w) + N)) = Ok v ->
  let run := attempt (retry attempts) (attempts - 1) (scripted f req) w in
  ((N < Nat.max 1 attempts)%nat ->
     fst run = Ok v /\ invocations w run = (N + 1)%nat)
  /\ ((Nat.max 1 attempts <= N)%nat ->
        fst run = Raise (RetryExhaustedError (errs (Nat.max 1 attempts - 1)%nat))
        /\ invocations w run = Nat.max 1 attempts).
Proof.
  intros Hfail Hok run. unfold run. split.
  - intros Hlt.
    rewrite (attempt_after_failures f _ _ N _ w errs Hfail), Hok;
      [|by rewrite Hok | lia].
    by rewrite invocations_logged.
  - intros Hge.
    rewrite (attempt_exhausted f _ _ _ w errs) by (intros k Hk; apply Hfail; lia).
    rewrite invocations_logged.
    replace (Nat.max 1 attempts - 1)%nat with (attempts - 1)%nat by lia.
    split; [done | lia].
Qed.

(** C3, as amended: the operation is always executed once, so the limit
    on attempts is [max 1 max_attempts].  When the first [N] attempts
    end in an error the policy retries (an exception of a class listed
    in [retry] raised by the transport, and for [aencode_batch] also a
    response with a status of 400 or more) and the next request is
    served, the call returns the embeddings after [N + 1] requests if
    [N] is below the limit; otherwise it raises RetryExhaustedError
    around the error of its last attempt, and the transport has seen
    exactly as many requests as the limit. *)
Theorem retry_bound attempts self texts w N r kvs items :
  script w (length (sent w) + N) = Replies r ->
  status r < 400 ->
  json_body r = Ok (JObj kvs) ->
  assoc "data" kvs = Some (JArr items) ->
  forallb is_item items = true ->
  let embs := map embedding_of (sort_by index_of items) in
  let limit := Nat.max 1 attempts in
  let sync := encode_batch attempts self texts w in
  let async := aencode_batch attempts self texts w in
  (forall errs : nat -> exn,
     (forall k, (k < N)%nat ->
        sync_failure (script w (length (sent w) + k)) = Some (errs k)) ->
     ((N < limit)%nat -> fst sync = Ok embs /\ invocations w sync = (N + 1)%nat)
     /\ ((limit <= N)%nat ->
           fst sync = Raise (RetryExhaustedError (errs (limit - 1)%nat))
           /\ invocations w sync = limit))
  /\ (forall errs : nat -> exn,
        (forall k, (k < N)%nat ->
           async_failure (script w (length (sent w) + k)) = Some (errs k)) ->
        ((N < limit)%nat -> fst async = Ok embs /\ invocations w async = (N + 1)%nat)
        /\ ((limit <= N)%nat ->
              fst async = Raise (RetryExhaustedError (errs (limit - 1)%nat))
              /\ invocations w async = limit)).
Proof.
  intros Hev Hst Hbody Hdata Hitems embs limit sync async.
  assert (Hs : sync_outcome (script w (length (sent w) + N)) = Ok embs).
  { rewrite Hev. simpl. rewrite Hbody. simpl. by apply embeddings_of_items. }
  assert (Ha : async_outcome (script w (length (sent w) + N)) = Ok embs).
  { by rewrite Hev, async_outcome_ok_status, <- Hev. }
  unfold sync, async, limit. rewrite encode_batch_scripted, aencode_batch_scripted.
  split; intros errs Hfail.
  - apply (retry_limit sync_outcome); [|done].
    intros k Hk. by apply sync_failure_outcome, Hfail.
  - apply (retry_limit async_outcome); [|done].
    intros k Hk. by apply async_failure_outcome, Hfail.
Qed.

(** Three attempts.  [encode_batch] meets HTTPError and
    ClientConnectionError from the transport and is served at the third
    request; [aencode_batch] meets a response of status 429 and a
    dropped connection and is served at the third request. *)
Lemma retry_bound_witness :
  (fst (encode_batch 3 example_client ["a"; "b"] (fails_twice shuffled_body))
   = Ok [JArr [JFloat 0.1]; JArr [JFloat 0.2]]
   /\ invocations (fails_twice shuffled_body)
        (encode_batch 3 example_client ["a"; "b"] (fails_twice shuffled_body)) = 3%nat)
  /\ (fst (aencode_batch 3 example_client ["a"; "b"] (limited_then_dropped shuffled_body))
      = Ok [JArr [JFloat 0.1]; JArr [JFloat 0.2]]
      /\ invocations (limited_then_dropped shuffled_body)
           (aencode_batch 3 example_client ["a"; "b"]
              (limited_then_dropped shuffled_body)) = 3%nat).
Proof.
  split.
  - refine (proj1 (proj1 (retry_bound 3 example_client ["a"; "b"]
                            (fails_twice shuffled_body) 2
                            {| status := 200; json_body := Ok shuffled_body |}
                            [("data",
                              JArr [JObj [("index", JInt 1); ("embedding", JArr [JFloat 0.2])];
                                    JObj [("index", JInt 0); ("embedding", JArr [JFloat 0.1])]])]
                            [JObj [("index", JInt 1); ("embedding", JArr [JFloat 0.2])];
                             JObj [("index", JInt 0); ("embedding", JArr [JFloat 0.1])]]
                            eq_refl eq_refl eq_refl eq_refl eq_refl)
                     (fun k => match k with
                               | O => HTTPError 503
                               | _ => ClientConnectionError
                               end) _) _).
    + intros [|[|k]] Hk; [reflexivity | reflexivity | lia].
    + simpl. lia.
  - refine (proj1 (proj2 (retry_bound 3 example_client ["a"; "b"]
                            (limited_then_dropped shuffled_body) 2
                            {| status := 200; json_body := Ok shuffled_body |}
                            [("data",
                              JArr [JObj [("index", JInt 1); ("embedding", JArr [JFloat 0.2])];
                                    JObj [("index", JInt 0); ("embedding", JArr [JFloat 0.1])]])]
                            [JObj [("index", JInt 1); ("embedding", JArr [JFloat 0.2])];
                             JObj [("index", JInt 0); ("embedding", JArr [JFloat 0.1])]]
                            eq_refl eq_refl eq_refl eq_refl eq_refl)
                     (fun k => match k with
                               | O => ClientResponseError 429
                               | _ => ClientConnectionError
                               end) _) _).
    + intros [|[|k]] Hk; [reflexivity | reflexivity | lia].
    + simpl. lia.
Defined.

(** C3 as stated fails at [max_attempts = 0] with a transport that
    serves the first request ([N = 0], so [N >= max_attempts]): the
    operation is executed once all the same and returns the embeddings
    after one request, where the claim has RetryExhaustedError and no
    request at all. *)
Lemma retry_bound_zero_attempts :
  fst (encode_batch 0 example_client ["a"; "b"] (fake_service (reply 200 shuffled_body)))
  = Ok [JArr [JFloat 0.1]; JArr [JFloat 0.2]]
  /\ invocations (fake_service (reply 200 shuffled_body))
       (encode_batch 0 example_client ["a"; "b"]
          (fake_service (reply 200 shuffled_body))) = 1%nat
  /\ fst (aencode_batch 0 example_client ["a"; "b"]
            (fake_service (reply 200 shuffled_body)))
     = Ok [JArr [JFloat 0.1]; JArr [JFloat 0.2]]
  /\ invocations (fake_service (reply 200 shuffled_body))
       (aencode_batch 0 example_client ["a"; "b"]
          (fake_service (reply 200 shuffled_body))) = 1%nat.
Proof. repeat split. Qed.

(** The first attempt on a decoded dict without [data]. *)
Lemma embeddings_of_missing_data kvs :
  assoc "data" kvs = None ->
  embeddings_of (JObj kvs)
  = Raise (match assoc "detail" kvs with
           | Some detail => RuntimeError detail
           | None => KeyError "detail"
           end).
Proof.
  intros Hdata. unfold embeddings_of. simpl. rewrite Hdata. simpl.
  by destruct (assoc "detail" kvs).
Qed.

Lemma missing_data_run attempts self texts w r kvs :
  script w (length (sent w)) = Replies r ->
  status r < 400 ->
  json_body r = Ok (JObj kvs) ->
  assoc "data" kvs = None ->
  let e := match assoc "detail" kvs with
           | Some detail => RuntimeError detail
           | None => KeyError "detail"
           end in
  encode_batch attempts self texts w
  = (Raise e, logged 1 (sync_request self texts) w)
  /\ aencode_batch attempts self texts w
     = (Raise e, logged 1 (async_request self texts) w).
Proof.
  intros Hev Hst Hbody Hdata e.
  assert (Hs : sync_outcome (script w (length (sent w))) = Raise e).
  { rewrite Hev. simpl. rewrite Hbody. simpl. by apply embeddings_of_missing_data. }
  assert (Ha : async_outcome (script w (length (sent w))) = Raise e).
  { by rewrite Hev, async_outcome_ok_status, <- Hev. }
  assert (Ht : isinstance e (exception_types (retry attempts)) = false).
  { unfold e. by destruct (assoc "detail" kvs). }
  split.
  - rewrite encode_batch_first; rewrite Hs; done.
  - rewrite aencode_batch_first; rewrite Ha; done.
Qed.

(** C4, as amended: a response with a status below 400 whose body decodes
    to a dict without [data] makes [encode_batch] and [aencode_batch]
    raise after exactly one request, without retry: RuntimeError carrying
    [detail] when the dict has it, KeyError for [detail] when it has
    not. *)
Theorem missing_data_not_retried attempts self texts w r kvs :
  script w (length (sent w)) = Replies r ->
  status r < 400 ->
  json_body r = Ok (JObj kvs) ->
  assoc "data" kvs = None ->
  let e := match assoc "detail" kvs with
           | Some detail => RuntimeError detail
           | None => KeyError "detail"
           end in
  let sync := encode_batch attempts self texts w in
  let async := aencode_batch attempts self texts w in
  fst sync = Raise e /\ invocations w sync = 1%nat
  /\ fst async = Raise e /\ invocations w async = 1%nat.
Proof.
  intros Hev Hst Hbody Hdata e sync async.
  destruct (missing_data_run attempts self texts w r kvs Hev Hst Hbody Hdata)
    as [Hs Ha].
  unfold sync, async. rewrite Hs, Ha, !invocations_logged. done.
Qed.

Lemma missing_data_not_retried_witness :
  fst (encode_batch 3 example_client ["a"]
         (fake_service (reply 200 (JObj [("detail", JStr "invalid model")]))))
  = Raise (RuntimeError (JStr "invalid model"))
  /\ invocations (fake_service (reply 200 (JObj [("detail", JStr "invalid model")])))
       (encode_batch 3 example_client ["a"]
          (fake_service (reply 200 (JObj [("detail", JStr "invalid model")])))) = 1%nat
  /\ fst (aencode_batch 3 example_client ["a"]
            (fake_service (reply 200 (JObj [("detail", JStr "invalid model")]))))
     = Raise (RuntimeError (JStr "invalid model"))
  /\ invocations (fake_service (reply 200 (JObj [("detail", JStr "invalid model")])))
       (aencode_batch 3 example_client ["a"]
          (fake_service (reply 200 (JObj [("detail", JStr "invalid model")])))) = 1%nat.
Proof.
  apply (missing_data_not_retried 3 example_client ["a"]
           (fake_service (reply 200 (JObj [("detail", JStr "invalid model")])))
           {| status := 200; json_body := Ok (JObj [("detail", JStr "invalid model")]) |}
           [("detail", JStr "invalid model")]);
    reflexivity.
Defined.

(** C4 as stated fails on the body [{}]: no service error is raised, the
    lookup of [detail] raises KeyError. *)
Lemma missing_data_empty_body_no_service_error :
  fst (encode_batch 3 example_client ["a"] (fake_service (reply 200 (JObj []))))
  = Raise (KeyError "detail")
  /\ fst (aencode_batch 3 example_client ["a"] (fake_service (reply 200 (JObj []))))
     = Raise (KeyError "detail")
  /\ ~ (exists detail,
          fst (encode_batch 3 example_client ["a"] (fake_service (reply 200 (JObj []))))
          = Raise (RuntimeError detail)).
Proof.
  repeat split. intros [detail H]. discriminate H.
Qed.

(** C5, at its failing input: a rate-limited response, status 429 with
    the body [{"detail": "rate limit exceeded"}].  The attempt of
    [encode_batch] ends in RuntimeError, which is not among the
    exception types of [retry], and the call makes one request; the
    attempt of [aencode_batch] ends in ClientResponseError, which is, and
    the call makes all three. *)
Theorem encode_batch_http_error_not_transient :
  let w := fake_service (reply 429 (JObj [("detail", JStr "rate limit exceeded")])) in
  fst (encode_batch_body example_client ["a"] w)
  = Raise (RuntimeError (JStr "rate limit exceeded"))
  /\ isinstance (RuntimeError (JStr "rate limit exceeded")) (exception_types (retry 3))
     = false
  /\ encode_batch 3 example_client ["a"] w = encode_batch_body example_client ["a"] w
  /\ invocations w (encode_batch 3 example_client ["a"] w) = 1%nat
  /\ fst (aencode_batch_body example_client ["a"] w) = Raise (ClientResponseError 429)
  /\ isinstance (ClientResponseError 429) (exception_types (retry 3)) = true
  /\ fst (aencode_batch 3 example_client ["a"] w)
     = Raise (RetryExhaustedError (ClientResponseError 429))
  /\ invocations w (aencode_batch 3 example_client ["a"] w) = 3%nat.
Proof. repeat split. Qed.

(** C6, as amended: a response with a status below 400 whose body decodes
    to a dict without [data] makes [encode_batch] and [aencode_batch]
    fail with RuntimeError whose argument is the [detail] field when the
    dict has one; when it has none, they fail with KeyError for [detail]
    and there is no generic message.  The scenario of the specification
    ([{"detail": "invalid model"}]) is the instance proved right after. *)
Theorem missing_data_error attempts self texts w r kvs :
  script w (length (sent w)) = Replies r ->
  status r < 400 ->
  json_body r = Ok (JObj kvs) ->
  assoc "data" kvs = None ->
  (forall detail, assoc "detail" kvs = Some detail ->
     fst (encode_batch attempts self texts w) = Raise (RuntimeError detail)
     /\ fst (aencode_batch attempts self texts w) = Raise (RuntimeError detail))
  /\ (assoc "detail" kvs = None ->
        fst (encode_batch attempts self texts w) = Raise (KeyError "detail")
        /\ fst (aencode_batch attempts self texts w) = Raise (KeyError "detail")).
Proof.
  intros Hev Hst Hbody Hdata.
  destruct (missing_data_run attempts self texts w r kvs Hev Hst Hbody Hdata)
    as [Hs Ha].
  rewrite Hs, Ha. split.
  - intros detail ->. done.
  - intros ->. done.
Qed.

Lemma missing_data_error_witness :
  fst (encode_batch 3 example_client ["a"; "b"]
         (fake_service (reply 200 (JObj [("detail", JStr "invalid model")]))))
  = Raise (RuntimeError (JStr "invalid model"))
  /\ fst (aencode_batch 3 example_client ["a"; "b"]
            (fake_service (reply 200 (JObj [("detail", JStr "invalid model")]))))
     = Raise (RuntimeError (JStr "invalid model")).
Proof.
  apply (proj1 (missing_data_error 3 example_client ["a"; "b"]
                  (fake_service (reply 200 (JObj [("detail", JStr "invalid model")])))
                  {| status := 200;
                     json_body := Ok (JObj [("detail", JStr "invalid model")]) |}
                  [("detail", JStr "invalid model")]
                  eq_refl eq_refl eq_refl eq_refl)).
  reflexivity.
Defined.

(** C6 as stated fails on the body [{"message": "no such model"}], which
    has neither [data] nor [detail]: what escapes is KeyError, not a
    service error with a generic message. *)
Lemma missing_detail_no_generic_message :
  fst (encode_batch 3 example_client ["a"; "b"]
         (fake_service (reply 200 (JObj [("message", JStr "no such model")]))))
  = Raise (KeyError "detail")
  /\ fst (aencode_batch 3 example_client ["a"; "b"]
            (fake_service (reply 200 (JObj [("message", JStr "no such model")]))))
     = Raise (KeyError "detail")
  /\ ~ (exists message,
          fst (aencode_batch 3 example_client ["a"; "b"]
                 (fake_service (reply 200 (JObj [("message", JStr "no such model")]))))
          = Raise (RuntimeError message)).
Proof.
  repeat split. intros [message H]. discriminate H.
Qed.

(** C7, as amended: an explicit [api_key] is used unchanged whenever one
    is given, the empty string included; only when none is given
    ([None]) is the key looked up under [JINA_API_KEY] in the
    environment, and when that lookup yields nothing the construction
    fails with MissingCredentialError.  In every case the constructor
    returns before any request is made. *)
Theorem init_credential_resolution model w :
  (forall api_key,
     __init__ (Some api_key) model w = (Ok (client_with api_key model), w))
  /\ (forall v, environ w !! KEY_NAME = Some v ->
        __init__ None model w = (Ok (client_with v model), w))
  /\ (environ w !! KEY_NAME = None ->
        __init__ None model w = (Raise MissingCredentialError, w))
  /\ (forall api_key, sent (snd (__init__ api_key model w)) = sent w).
Proof.
  repeat split.
  - intros v Hv. unfold __init__, bind, get_key. by rewrite Hv.
  - intros Hv. unfold __init__, bind, get_key. by rewrite Hv.
  - intros [api_key|]; [done|].
    unfold __init__, bind, get_key. by destruct (environ w !! KEY_NAME).
Qed.

Lemma init_credential_resolution_witness :
  __init__ None default_model_name keyed_process
  = (Ok (client_with "from-env" default_model_name), keyed_process)
  /\ __init__ None default_model_name keyless_process
     = (Raise MissingCredentialError, keyless_process).
Proof.
  split.
  - apply (proj1 (proj2 (init_credential_resolution default_model_name keyed_process))).
    reflexivity.
  - apply (proj1 (proj2 (proj2
             (init_credential_resolution default_model_name keyless_process)))).
    reflexivity.
Defined.

(** C7 as stated fails on the explicit key [""]: it is provided and
    empty, yet the environment is not consulted.  With the key in the
    environment the client carries the empty key, and without it the
    construction succeeds all the same. *)
Lemma init_empty_key_not_looked_up :
  fst (__init__ (Some "") default_model_name keyed_process)
  = Ok (client_with "" default_model_name)
  /\ _headers (client_with "" default_model_name)
     = [("Authorization", "Bearer ");
        ("Accept-Encoding", "identity");
        ("Content-type", "application/json")]
  /\ fst (__init__ (Some "") default_model_name keyless_process)
     <> Raise MissingCredentialError.
Proof. repeat split. discriminate. Qed.

(** C8: on a response whose [data] lists well-formed items the result has
    as many elements as [data] has items, whatever the number of texts:
    the length of the input when the service returned one item per
    input, and the mismatched count otherwise, neither padded nor
    truncated. *)
Theorem encode_batch_length attempts self texts w r kvs items :
  script w (length (sent w)) = Replies r ->
  json_body r = Ok (JObj kvs) ->
  assoc "data" kvs = Some (JArr items) ->
  forallb is_item items = true ->
  exists embs,
    fst (encode_batch attempts self texts w) = Ok embs
    /\ (status r < 400 -> fst (aencode_batch attempts self texts w) = Ok embs)
    /\ length embs = length items
    /\ (length items = length texts -> length embs = length texts).
Proof.
  intros Hev Hbody Hdata Hitems.
  exists (map embedding_of (sort_by index_of items)).
  assert (Hlen : length (map embedding_of (sort_by index_of items)) = length items).
  { by rewrite length_map, sort_by_length. }
  repeat split.
  - by rewrite (encode_batch_items _ _ _ _ r kvs items).
  - intros Hst. by rewrite (aencode_batch_items _ _ _ _ r kvs items).
  - done.
  - intros <-. done.
Qed.

(** One text, two items: both embeddings come back. *)
Lemma encode_batch_length_witness :
  exists embs,
    fst (encode_batch 3 example_client ["a"] (fake_service (reply 200 shuffled_body)))
    = Ok embs
    /\ fst (aencode_batch 3 example_client ["a"] (fake_service (reply 200 shuffled_body)))
       = Ok embs
    /\ length embs = 2%nat.
Proof.
  destruct (encode_batch_length 3 example_client ["a"]
              (fake_service (reply 200 shuffled_body))
              {| status := 200; json_body := Ok shuffled_body |}
              [("data", JArr [JObj [("index", JInt 1); ("embedding", JArr [JFloat 0.2])];
                              JObj [("index", JInt 0); ("embedding", JArr [JFloat 0.1])]])]
              [JObj [("index", JInt 1); ("embedding", JArr [JFloat 0.2])];
               JObj [("index", JInt 0); ("embedding", JArr [JFloat 0.1])]]
              eq_refl eq_refl eq_refl eq_refl)
    as (embs & Hsync & Hasync & Hlen & _).
  exists embs. split; [exact Hsync|]. split; [apply Hasync; reflexivity | exact Hlen].
Defined.

(** C9: on items with integer indices the sort-by-index step is a stable
    sort and is idempotent: its result is a permutation of the items in
    ascending order of index, the items of any one index keep the order
    they had in the response, a list already in ascending order comes
    back unchanged, and sorting the result again changes nothing. *)
Theorem sorted_by_index_stable_idempotent items :
  forallb has_index items = true ->
  exists s,
    py_sorted (JArr items) (fun e => py_getitem e "index") = Ok s
    /\ Permutation s items
    /\ ascending index_of s
    /\ (forall k, filter (fun e => index_of e =? k) s
                  = filter (fun e => index_of e =? k) items)
    /\ (ascending index_of items -> s = items)
    /\ py_sorted (JArr s) (fun e => py_getitem e "index") = Ok s.
Proof.
  intros Hitems. exists (sort_by index_of items). repeat split.
  - by apply py_sorted_items.
  - apply sort_by_perm.
  - apply sort_by_ascending.
  - intros k. apply sort_by_stable.
  - apply sort_by_ascending_id.
  - rewrite py_sorted_items, sort_by_idempotent; [done|].
    apply (forallb_perm _ items); [|done].
    apply Permutation_sym, sort_by_perm.
Qed.

(** Two items of index 1 around one of index 0: the ties keep their
    order. *)
Lemma sorted_by_index_stable_idempotent_witness :
  exists s,
    py_sorted (JArr [JObj [("index", JInt 1); ("embedding", JStr "first")];
                     JObj [("index", JInt 0); ("embedding", JStr "zero")];
                     JObj [("index", JInt 1); ("embedding", JStr "second")]])
      (fun e => py_getitem e "index") = Ok s
    /\ s = [JObj [("index", JInt 0); ("embedding", JStr "zero")];
            JObj [("index", JInt 1); ("embedding", JStr "first")];
            JObj [("index", JInt 1); ("embedding", JStr "second")]]
    /\ py_sorted (JArr s) (fun e => py_getitem e "index") = Ok s.
Proof.
  destruct (sorted_by_index_stable_idempotent
              [JObj [("index", JInt 1); ("embedding", JStr "first")];
               JObj [("index", JInt 0); ("embedding", JStr "zero")];
               JObj [("index", JInt 1); ("embedding", JStr "second")]] eq_refl)
    as (s & Hs & _ & _ & _ & _ & Hidem).
  exists s. split; [exact Hs|]. split; [|exact Hidem].
  cbv in Hs. by injection Hs.
Defined.

(** C10: neither operation validates [texts].  For any list, the empty
    one included, the call sends at least one request, every request it
    sends is the one built from the given [texts], and its outcome is the
    same as for any other list of texts: it depends on the events of the
    transport alone. *)
Theorem no_local_validation attempts self texts w :
  (exists k, (1 <= k)%nat
     /\ sent (snd (encode_batch attempts self texts w))
        = (sent w ++ repeat (sync_request self texts) k)%list)
  /\ (exists k, (1 <= k)%nat
        /\ sent (snd (aencode_batch attempts self texts w))
           = (sent w ++ repeat (async_request self texts) k)%list)
  /\ payload (sync_request self texts)
     = JObj [("input", JArr (map JStr texts)); ("model", JStr (model_name self))]
  /\ payload (async_request self texts)
     = JObj [("model", JStr (model_name self)); ("input", JArr (map JStr texts))]
  /\ (forall texts',
        fst (encode_batch attempts self texts w)
        = fst (encode_batch attempts self texts' w))
  /\ (forall texts',
        fst (aencode_batch attempts self texts w)
        = fst (aencode_batch attempts self texts' w)).
Proof.
  repeat split.
  - rewrite encode_batch_scripted.
    destruct (attempt_requests sync_outcome (retry attempts)
                (sync_request self texts) (attempts - 1) w) as (k & Hk & Hsnd).
    exists k. split; [lia|]. by rewrite Hsnd.
  - rewrite aencode_batch_scripted.
    destruct (attempt_requests async_outcome (retry attempts)
                (async_request self texts) (attempts - 1) w) as (k & Hk & Hsnd).
    exists k. split; [lia|]. by rewrite Hsnd.
  - intros texts'. rewrite !encode_batch_scripted.
    by apply attempt_outcome_script.
  - intros texts'. rewrite !aencode_batch_scripted.
    by apply attempt_outcome_script.
Qed.

(** The empty batch goes out like any other and the answer of the
    service is returned. *)
Example encode_batch_empty_input :
  encode_batch 3 example_client [] (fake_service (reply 200 (JObj [("data", JArr [])])))
  = (Ok [],
     logged 1 (sync_request example_client [])
       (fake_service (reply 200 (JObj [("data", JArr [])])))).
Proof. reflexivity. Qed.

(** The policy retries the connection error of aiohttp and not the one of
    requests: a connection failure met by [encode_batch] escapes at
    once. *)
Example connection_errors_classified :
  isinstance ClientConnectionError (exception_types (retry 3)) = true
  /\ isinstance ConnectionError (exception_types (retry 3)) = false
  /\ encode_batch 3 example_client ["a"] (fake_service (Throws ConnectionError))
     = (Raise ConnectionError,
        logged 1 (sync_request example_client ["a"])
          (fake_service (Throws ConnectionError))).
Proof. repeat split. Qed.

(** ** Further properties of the operations *)

(** A decoded body whose handling does not end in a transient error
    settles the call at the first request. *)
Lemma decoded_run attempts self texts w r v :
  script w (length (sent w)) = Replies r ->
  json_body r = Ok v ->
  transient (retry attempts) (embeddings_of v) = false ->
  encode_batch attempts self texts w
  = (embeddings_of v, logged 1 (sync_request self texts) w)
  /\ (status r < 400 ->
      aencode_batch attempts self texts w
      = (embeddings_of v, logged 1 (async_request self texts) w)).
Proof.
  intros Hev Hbody Ht.
  assert (Hs : sync_outcome (script w (length (sent w))) = embeddings_of v).
  { rewrite Hev. simpl. by rewrite Hbody. }
  split.
  - rewrite encode_batch_first; rewrite Hs; done.
  - intros Hst.
    assert (Ha : async_outcome (script w (length (sent w))) = embeddings_of v).
    { by rewrite Hev, async_outcome_ok_status, <- Hev. }
    rewrite aencode_batch_first; rewrite Ha; done.
Qed.

Lemma embeddings_of_non_object v :
  is_object v = false -> embeddings_of v = Raise TypeError.
Proof.
  unfold embeddings_of. destruct v as [|b|n|x|s|xs|kvs]; try done; intros _; simpl.
  - by destruct (String.index 0 "data" s).
  - by destruct (existsb _ xs).
Qed.

(** X1: a body that decodes to anything but a dict (null, a number, a
    string, a list) makes both operations raise TypeError after exactly
    one request: the membership test or the subscript that follows it
    fails, and TypeError is not retried. *)
Theorem non_object_body_type_error attempts self texts w r v :
  script w (length (sent w)) = Replies r ->
  json_body r = Ok v ->
  is_object v = false ->
  let sync := encode_batch attempts self texts w in
  let async := aencode_batch attempts self texts w in
  fst sync = Raise TypeError /\ invocations w sync = 1%nat
  /\ (status r < 400 ->
      fst async = Raise TypeError /\ invocations w async = 1%nat).
Proof.
  intros Hev Hbody Hv sync async.
  destruct (decoded_run attempts self texts w r v Hev Hbody) as [Hs Ha].
  { by rewrite embeddings_of_non_object. }
  unfold sync, async. rewrite Hs, embeddings_of_non_object by done.
  rewrite invocations_logged. repeat split; try done.
  - by rewrite Ha, embeddings_of_non_object.
  - by rewrite Ha, invocations_logged.
Qed.

(** A list that happens to contain the string "data", and [null]. *)
Lemma non_object_body_type_error_witness :
  (fst (encode_batch 3 example_client ["a"]
          (fake_service (reply 200 (JArr [JStr "data"])))) = Raise TypeError
   /\ fst (aencode_batch 3 example_client ["a"]
             (fake_service (reply 200 (JArr [JStr "data"])))) = Raise TypeError)
  /\ fst (encode_batch 3 example_client ["a"] (fake_service (reply 200 JNull)))
     = Raise TypeError.
Proof.
  split.
  - destruct (non_object_body_type_error 3 example_client ["a"]
                (fake_service (reply 200 (JArr [JStr "data"])))
                {| status := 200; json_body := Ok (JArr [JStr "data"]) |}
                (JArr [JStr "data"]) eq_refl eq_refl eq_refl)
      as (Hs & _ & Ha).
    split; [exact Hs | apply Ha; reflexivity].
  - apply (proj1 (non_object_body_type_error 3 example_client ["a"]
                    (fake_service (reply 200 JNull))
                    {| status := 200; json_body := Ok JNull |} JNull
                    eq_refl eq_refl eq_refl)).
Defined.

Lemma embeddings_of_non_list kvs data :
  assoc "data" kvs = Some data ->
  is_array data = false ->
  embeddings_of (JObj kvs) = non_list_data_outcome data.
Proof.
  intros Hdata Hd. unfold embeddings_of. simpl. rewrite Hdata. simpl.
  destruct data as [|b|n|x|s|xs|entries]; try done.
  - by destruct s.
  - by destruct entries as [|[k v] rest].
Qed.

(** X2: when [data] is present but is not a list, both operations stop
    at the first request: with TypeError for null, a number, a non-empty
    string or a non-empty dict (their elements cannot be subscripted
    with "index"), and with the empty result for an empty dict or an
    empty string, which have nothing to sort. *)
Theorem data_not_a_list attempts self texts w r kvs data :
  script w (length (sent w)) = Replies r ->
  json_body r = Ok (JObj kvs) ->
  assoc "data" kvs = Some data ->
  is_array data = false ->
  let sync := encode_batch attempts self texts w in
  let async := aencode_batch attempts self texts w in
  fst sync = non_list_data_outcome data /\ invocations w sync = 1%nat
  /\ (status r < 400 ->
      fst async = non_list_data_outcome data /\ invocations w async = 1%nat).
Proof.
  intros Hev Hbody Hdata Hd sync async.
  pose proof (embeddings_of_non_list kvs data Hdata Hd) as Hout.
  destruct (decoded_run attempts self texts w r (JObj kvs) Hev Hbody) as [Hs Ha].
  { rewrite Hout. by destruct data as [| | | |[|]| |[|]]. }
  unfold sync, async. rewrite Hs, Hout, invocations_logged.
  repeat split; try done.
  - by rewrite Ha, Hout.
  - by rewrite Ha, invocations_logged.
Qed.

Lemma data_not_a_list_witness :
  fst (encode_batch 3 example_client ["a"]
         (fake_service (reply 200 (JObj [("data", JNull)])))) = Raise TypeError
  /\ fst (aencode_batch 3 example_client ["a"]
            (fake_service (reply 200 (JObj [("data", JObj [])])))) = Ok [].
Proof.
  split.
  - apply (proj1 (data_not_a_list 3 example_client ["a"]
                    (fake_service (reply 200 (JObj [("data", JNull)])))
                    {| status := 200; json_body := Ok (JObj [("data", JNull)]) |}
                    [("data", JNull)] JNull eq_refl eq_refl eq_refl eq_refl)).
  - destruct (data_not_a_list 3 example_client ["a"]
                (fake_service (reply 200 (JObj [("data", JObj [])])))
                {| status := 200; json_body := Ok (JObj [("data", JObj [])]) |}
                [("data", JObj [])] (JObj []) eq_refl eq_refl eq_refl eq_refl)
      as (_ & _ & Ha).
    apply Ha. reflexivity.
Defined.

Lemma rmap_index_missing items :
  forallb is_object items = true ->
  existsb (lacks "index") items = true ->
  rmap (fun e => py_getitem e "index") items = Raise (KeyError "index").
Proof.
  induction items as [|e items IH]; simpl; [discriminate|].
  intros [He Hrest]%andb_prop Hex.
  destruct e as [| | | | | |kvs]; try discriminate. simpl in *.
  destruct (assoc "index" kvs); [|done].
  simpl in *. by rewrite IH.
Qed.

(** X3: when every item of [data] is a dict and one of them has no
    [index], both operations raise KeyError for "index" after one
    request, whatever the other items hold: the key function of [sorted]
    runs over all the items before anything is returned. *)
Theorem item_without_index attempts self texts w r kvs items :
  script w (length (sent w)) = Replies r ->
  json_body r = Ok (JObj kvs) ->
  assoc "data" kvs = Some (JArr items) ->
  forallb is_object items = true ->
  existsb (lacks "index") items = true ->
  let sync := encode_batch attempts self texts w in
  let async := aencode_batch attempts self texts w in
  fst sync = Raise (KeyError "index") /\ invocations w sync = 1%nat
  /\ (status r < 400 ->
      fst async = Raise (KeyError "index") /\ invocations w async = 1%nat).
Proof.
  intros Hev Hbody Hdata Hobj Hex sync async.
  assert (Hout : embeddings_of (JObj kvs) = Raise (KeyError "index")).
  { unfold embeddings_of. simpl. rewrite Hdata. simpl.
    unfold py_sorted. simpl. by rewrite rmap_index_missing. }
  destruct (decoded_run attempts self texts w r (JObj kvs) Hev Hbody) as [Hs Ha].
  { by rewrite Hout. }
  unfold sync, async. rewrite Hs, Hout, invocations_logged.
  repeat split; try done.
  - by rewrite Ha, Hout.
  - by rewrite Ha, invocations_logged.
Qed.

(** The second item has an embedding and no index. *)
Lemma item_without_index_witness :
  fst (encode_batch 3 example_client ["a"; "b"]
         (fake_service (reply 200
            (JObj [("data", JArr [JObj [("index", JInt 0); ("embedding", JArr [])];
                                  JObj [("embedding", JArr [])]])]))))
  = Raise (KeyError "index").
Proof.
  apply (proj1 (item_without_index 3 example_client ["a"; "b"]
                  (fake_service (reply 200
                     (JObj [("data", JArr [JObj [("index", JInt 0); ("embedding", JArr [])];
                                           JObj [("embedding", JArr [])]])])))
                  {| status := 200;
                     json_body :=
                       Ok (JObj [("data",
                                  JArr [JObj [("index", JInt 0); ("embedding", JArr [])];
                                        JObj [("embedding", JArr [])]])]) |}
                  [("data", JArr [JObj [("index", JInt 0); ("embedding", JArr [])];
                                  JObj [("embedding", JArr [])]])]
                  [JObj [("index", JInt 0); ("embedding", JArr [])];
                   JObj [("embedding", JArr [])]]
                  eq_refl eq_refl eq_refl eq_refl eq_refl)).
Defined.

Lemma has_index_object e : has_index e = true -> is_object e = true.
Proof.
  unfold has_index, item_index. by destruct e.
Qed.

Lemma rmap_embedding_missing items :
  forallb has_index items = true ->
  forallb is_item items = false ->
  rmap (fun result => py_getitem result "embedding") items
  = Raise (KeyError "embedding").
Proof.
  induction items as [|e items IH]; simpl; [discriminate|].
  intros [He Hrest]%andb_prop Hitem.
  unfold is_item at 1 in Hitem. rewrite He in Hitem. simpl in Hitem.
  pose proof (has_index_object e He) as Hobj.
  destruct e as [| | | | | |kvs]; try discriminate.
  unfold item_embedding in Hitem. simpl in *.
  destruct (assoc "embedding" kvs); [|done].
  simpl in *. by rewrite IH.
Qed.

Lemma forallb_perm_eq {A} (p : A -> bool) l l' :
  Permutation l l' -> forallb p l = forallb p l'.
Proof.
  intros HP. destruct (forallb p l) eqn:Hl.
  - symmetry. by apply (forallb_perm p l l').
  - destruct (forallb p l') eqn:Hl'; [|done].
    rewrite (forallb_perm p l' l) in Hl; [done | by apply Permutation_sym | done].
Qed.

(** X4: when every item of [data] has an integer index and one of them
    has no [embedding], both operations raise KeyError for "embedding"
    after one request; no partial list of embeddings is returned. *)
Theorem item_without_embedding attempts self texts w r kvs items :
  script w (length (sent w)) = Replies r ->
  json_body r = Ok (JObj kvs) ->
  assoc "data" kvs = Some (JArr items) ->
  forallb has_index items = true ->
  forallb is_item items = false ->
  let sync := encode_batch attempts self texts w in
  let async := aencode_batch attempts self texts w in
  fst sync = Raise (KeyError "embedding") /\ invocations w sync = 1%nat
  /\ (status r < 400 ->
      fst async = Raise (KeyError "embedding") /\ invocations w async = 1%nat).
Proof.
  intros Hev Hbody Hdata Hidx Hitem sync async.
  assert (Hout : embeddings_of (JObj kvs) = Raise (KeyError "embedding")).
  { unfold embeddings_of. simpl. rewrite Hdata. simpl.
    rewrite (py_sorted_items items Hidx). simpl.
    apply rmap_embedding_missing.
    - by rewrite (forallb_perm_eq _ _ items (sort_by_perm index_of items)).
    - by rewrite (forallb_perm_eq _ _ items (sort_by_perm index_of items)). }
  destruct (decoded_run attempts self texts w r (JObj kvs) Hev Hbody) as [Hs Ha].
  { by rewrite Hout. }
  unfold sync, async. rewrite Hs, Hout, invocations_logged.
  repeat split; try done.
  - by rewrite Ha, Hout.
  - by rewrite Ha, invocations_logged.
Qed.

(** The item of index 0 has no embedding. *)
Lemma item_without_embedding_witness :
  fst (encode_batch 3 example_client ["a"; "b"]
         (fake_service (reply 200
            (JObj [("data", JArr [JObj [("index", JInt 1); ("embedding", JArr [])];
                                  JObj [("index", JInt 0)]])]))))
  = Raise (KeyError "embedding").
Proof.
  apply (proj1 (item_without_embedding 3 example_client ["a"; "b"]
                  (fake_service (reply 200
                     (JObj [("data", JArr [JObj [("index", JInt 1); ("embedding", JArr [])];
                                           JObj [("index", JInt 0)]])])))
                  {| status := 200;
                     json_body :=
                       Ok (JObj [("data",
                                  JArr [JObj [("index", JInt 1); ("embedding", JArr [])];
                                        JObj [("index", JInt 0)]])]) |}
                  [("data", JArr [JObj [("index", JInt 1); ("embedding", JArr [])];
                                  JObj [("index", JInt 0)]])]
                  [JObj [("index", JInt 1); ("embedding", JArr [])];
                   JObj [("index", JInt 0)]]
                  eq_refl eq_refl eq_refl eq_refl eq_refl)).
Defined.

(** X5: on well-formed items, whatever their indices are (gaps,
    repetitions and negative values included), the result lists exactly
    the embeddings of the response, none lost and none repeated; when
    the response already is in ascending order of index the embeddings
    come back in the order of the response. *)
Theorem embeddings_rearranged attempts self texts w r kvs items :
  script w (length (sent w)) = Replies r ->
  json_body r = Ok (JObj kvs) ->
  assoc "data" kvs = Some (JArr items) ->
  forallb is_item items = true ->
  exists embs,
    fst (encode_batch attempts self texts w) = Ok embs
    /\ (status r < 400 -> fst (aencode_batch attempts self texts w) = Ok embs)
    /\ Permutation embs (map embedding_of items)
    /\ (ascending index_of items -> embs = map embedding_of items).
Proof.
  intros Hev Hbody Hdata Hitems.
  exists (map embedding_of (sort_by index_of items)). repeat split.
  - by rewrite (encode_batch_items _ _ _ _ r kvs items).
  - intros Hst. by rewrite (aencode_batch_items _ _ _ _ r kvs items).
  - apply Permutation_map, sort_by_perm.
  - intros Hasc. by rewrite sort_by_ascending_id.
Qed.

(** Indices 7, -2 and 7 again. *)
Lemma embeddings_rearranged_witness :
  exists embs,
    fst (encode_batch 3 example_client ["a"]
           (fake_service (reply 200
              (JObj [("data",
                      JArr [JObj [("index", JInt 7); ("embedding", JStr "x")];
                            JObj [("index", JInt (-2)); ("embedding", JStr "y")];
                            JObj [("index", JInt 7); ("embedding", JStr "z")]])]))))
    = Ok embs
    /\ Permutation embs [JStr "x"; JStr "y"; JStr "z"].
Proof.
  destruct (embeddings_rearranged 3 example_client ["a"]
              (fake_service (reply 200
                 (JObj [("data",
                         JArr [JObj [("index", JInt 7); ("embedding", JStr "x")];
                               JObj [("index", JInt (-2)); ("embedding", JStr "y")];
                               JObj [("index", JInt 7); ("embedding", JStr "z")]])])))
              {| status := 200;
                 json_body :=
                   Ok (JObj [("data",
                              JArr [JObj [("index", JInt 7); ("embedding", JStr "x")];
                                    JObj [("index", JInt (-2)); ("embedding", JStr "y")];
                                    JObj [("index", JInt 7); ("embedding", JStr "z")]])]) |}
              [("data",
                JArr [JObj [("index", JInt 7); ("embedding", JStr "x")];
                      JObj [("index", JInt (-2)); ("embedding", JStr "y")];
                      JObj [("index", JInt 7); ("embedding", JStr "z")]])]
              [JObj [("index", JInt 7); ("embedding", JStr "x")];
               JObj [("index", JInt (-2)); ("embedding", JStr "y")];
               JObj [("index", JInt 7); ("embedding", JStr "z")]]
              eq_refl eq_refl eq_refl eq_refl)
    as (embs & Hs & _ & Hperm & _).
  exists embs. split; [exact Hs | exact Hperm].
Defined.

(** X7: a call of either operation makes at least one request and at
    most [max_attempts] of them (one when [max_attempts] is 0), and
    leaves the environment and the transport script as they were. *)
Theorem requests_bounded attempts self texts w :
  let sync := encode_batch attempts self texts w in
  let async := aencode_batch attempts self texts w in
  (1 <= invocations w sync <= Nat.max 1 attempts)%nat
  /\ (1 <= invocations w async <= Nat.max 1 attempts)%nat
  /\ environ (snd sync) = environ w /\ script (snd sync) = script w
  /\ environ (snd async) = environ w /\ script (snd async) = script w.
Proof.
  intros sync async. unfold sync, async.
  rewrite encode_batch_scripted, aencode_batch_scripted.
  destruct (attempt_requests sync_outcome (retry attempts)
              (sync_request self texts) (attempts - 1) w) as (k & Hk & Hs).
  destruct (attempt_requests async_outcome (retry attempts)
              (async_request self texts) (attempts - 1) w) as (k' & Hk' & Ha).
  unfold invocations. rewrite Hs, Ha, !logged_sent. simpl. repeat split; lia.
Qed.

(** X8: when the service answers every attempt of [aencode_batch] with a
    status of 400 or more, the bodies are never decoded, whatever they
    hold: with [0 < max_attempts] the call makes exactly [max_attempts]
    requests and raises RetryExhaustedError around the
    ClientResponseError of the last response. *)
Theorem aencode_batch_error_status attempts self texts w (rs : nat -> response) :
  (0 < attempts)%nat ->
  (forall k, (k < attempts)%nat ->
     script w (length (sent w) + k) = Replies (rs k) /\ 400 <= status (rs k)) ->
  let async := aencode_batch attempts self texts w in
  fst async
  = Raise (RetryExhaustedError (ClientResponseError (status (rs (attempts - 1)%nat))))
  /\ invocations w async = attempts.
Proof.
  intros Hpos Hrs async. unfold async. rewrite aencode_batch_scripted.
  rewrite (attempt_exhausted async_outcome _ _ _ w
             (fun k => ClientResponseError (status (rs k)))).
  - rewrite invocations_logged. split; [done | lia].
  - intros k Hk. destruct (Hrs k ltac:(lia)) as [-> Hst]. split; [|done].
    unfold async_outcome, raise_for_status.
    destruct (Z.leb_spec 400 (status (rs k))); [done | lia].
Qed.

(** A status 500 whose body holds the embeddings all the same. *)
Lemma aencode_batch_error_status_witness :
  fst (aencode_batch 2 example_client ["a"; "b"] (fake_service (reply 500 shuffled_body)))
  = Raise (RetryExhaustedError (ClientResponseError 500))
  /\ invocations (fake_service (reply 500 shuffled_body))
       (aencode_batch 2 example_client ["a"; "b"]
          (fake_service (reply 500 shuffled_body))) = 2%nat.
Proof.
  apply (aencode_batch_error_status 2 example_client ["a"; "b"]
           (fake_service (reply 500 shuffled_body))
           (fun _ => {| status := 500; json_body := Ok shuffled_body |})).
  - lia.
  - intros [|[|k]] Hk; [split; [reflexivity | discriminate]
                       | split; [reflexivity | discriminate] | lia].
Defined.

(** Two runs of the retry loop that meet the same outcomes, attempt by
    attempt, end alike and make the same number of requests. *)
Lemma attempt_pointwise {A} (f f' : transport_event -> result A) R req req' :
  forall n w w',
    length (sent w) = length (sent w') ->
    (forall k, f (script w k) = f' (script w' k)) ->
    fst (attempt R n (scripted f req) w) = fst (attempt R n (scripted f' req') w')
    /\ length (sent (snd (attempt R n (scripted f req) w)))
       = length (sent (snd (attempt R n (scripted f' req') w'))).
Proof.
  assert (Hstop : forall (r : result A) w w',
            length (sent w) = length (sent w') ->
            fst (r, logged 1 req w) = fst (r, logged 1 req' w')
            /\ length (sent (snd (r, logged 1 req w)))
               = length (sent (snd (r, logged 1 req' w')))).
  { intros r w w' Hl. simpl fst. simpl snd. by rewrite !logged_sent, Hl. }
  induction n as [|n IH]; intros w w' Hl Hf;
    rewrite (attempt_unfold _ _ _ w), (attempt_unfold _ _ _ w');
    rewrite !scripted_run, Hf, Hl.
  - destruct (f' _) as [a|e|]; try by apply Hstop.
    destruct (isinstance e (exception_types R)); by apply Hstop.
  - destruct (f' _) as [a|e|]; try by apply Hstop.
    destruct (isinstance e (exception_types R)); [|by apply Hstop].
    apply IH; [by rewrite !logged_sent, Hl | done].
Qed.

Lemma sync_outcome_same_but_status ev ev' :
  same_but_status ev ev' -> sync_outcome ev = sync_outcome ev'.
Proof.
  destruct ev as [e|r], ev' as [e'|r']; simpl; try done.
  - by intros ->.
  - by intros ->.
Qed.

(** X9: [encode_batch] never reads the HTTP status: on two transports
    whose events differ at most in the status of the responses it has
    the same outcome after the same number of requests. *)
Theorem encode_batch_ignores_status attempts self texts w w' :
  length (sent w) = length (sent w') ->
  (forall k, same_but_status (script w k) (script w' k)) ->
  fst (encode_batch attempts self texts w) = fst (encode_batch attempts self texts w')
  /\ invocations w (encode_batch attempts self texts w)
     = invocations w' (encode_batch attempts self texts w').
Proof.
  intros Hl Hsame. rewrite !encode_batch_scripted.
  destruct (attempt_pointwise sync_outcome sync_outcome (retry attempts)
              (sync_request self texts) (sync_request self texts)
              (attempts - 1) w w' Hl) as [Hfst Hlen].
  { intros k. by apply sync_outcome_same_but_status. }
  split; [done|]. unfold invocations. by rewrite Hlen, Hl.
Qed.

(** The embeddings under status 200 and under status 500. *)
Lemma encode_batch_ignores_status_witness :
  fst (encode_batch 3 example_client ["a"; "b"] (fake_service (reply 200 shuffled_body)))
  = fst (encode_batch 3 example_client ["a"; "b"] (fake_service (reply 500 shuffled_body))).
Proof.
  apply (proj1 (encode_batch_ignores_status 3 example_client ["a"; "b"]
                  (fake_service (reply 200 shuffled_body))
                  (fake_service (reply 500 shuffled_body))
                  eq_refl (fun k => match k with O => eq_refl | S _ => eq_refl end))).
Defined.

(** X10: an exception of the transport that is not of a class listed in
    [retry] (the ConnectionError of requests, for one) escapes from both
    operations as it is, after exactly one request. *)
Theorem transport_error_not_listed attempts self texts w e :
  script w (length (sent w)) = Throws e ->
  isinstance e [ClientResponseError_; ClientConnectionError_; HTTPError_] = false ->
  let sync := encode_batch attempts self texts w in
  let async := aencode_batch attempts self texts w in
  fst sync = Raise e /\ invocations w sync = 1%nat
  /\ fst async = Raise e /\ invocations w async = 1%nat.
Proof.
  intros Hev Hcls sync async. unfold sync, async.
  rewrite encode_batch_first by (by rewrite Hev).
  rewrite aencode_batch_first by (by rewrite Hev).
  rewrite Hev, !invocations_logged. done.
Qed.

Lemma transport_error_not_listed_witness :
  fst (encode_batch 3 example_client ["a"] (fake_service (Throws ConnectionError)))
  = Raise ConnectionError
  /\ invocations (fake_service (Throws ConnectionError))
       (encode_batch 3 example_client ["a"] (fake_service (Throws ConnectionError)))
     = 1%nat.
Proof.
  destruct (transport_error_not_listed 3 example_client ["a"]
              (fake_service (Throws ConnectionError)) ConnectionError eq_refl eq_refl)
    as (Hs & Hn & _).
  split; [exact Hs | exact Hn].
Defined.

Lemma attempt_more {A} R (op : M A) : forall n w,
  (forall e, fst (attempt R n op w) <> Raise (RetryExhaustedError e)) ->
  attempt R (S n) op w = attempt R n op w.
Proof.
  induction n as [|n IH]; intros w Hne;
    rewrite (attempt_unfold R (S _)); rewrite (attempt_unfold R _ op w) in Hne |- *;
    destruct (op w) as [[a|e|] w1]; try done;
    destruct (isinstance e (exception_types R)) eqn:Ht; try done.
  - by destruct (Hne e).
  - by apply IH.
Qed.

Lemma attempt_more_le {A} R (op : M A) n n' w :
  (n <= n')%nat ->
  (forall e, fst (attempt R n op w) <> Raise (RetryExhaustedError e)) ->
  attempt R n' op w = attempt R n op w.
Proof.
  induction 1 as [|m Hle IH]; intros Hne; [done|].
  rewrite attempt_more; [by apply IH|].
  rewrite IH by done. exact Hne.
Qed.

Lemma attempt_types {A} R R' (op : M A) :
  exception_types R = exception_types R' ->
  forall n w, attempt R n op w = attempt R' n op w.
Proof.
  intros Hty. induction n as [|n IH]; intros w; simpl; rewrite Hty;
    destruct (op w) as [[a|e|] w1]; try done;
    destruct (isinstance e (exception_types R')); done.
Qed.

(** X11: a call of either operation that did not end in
    RetryExhaustedError is not changed by a larger [max_attempts]: same
    outcome, same requests.  Each operation on its own. *)
Theorem more_attempts_same_run attempts attempts' self texts w :
  (attempts <= attempts')%nat ->
  ((forall e, fst (encode_batch attempts self texts w)
              <> Raise (RetryExhaustedError e)) ->
   encode_batch attempts' self texts w = encode_batch attempts self texts w)
  /\ ((forall e, fst (aencode_batch attempts self texts w)
                 <> Raise (RetryExhaustedError e)) ->
      aencode_batch attempts' self texts w = aencode_batch attempts self texts w).
Proof.
  intros Hle. unfold encode_batch, aencode_batch, with_retry.
  simpl max_attempts. split; intros Hne.
  - rewrite (attempt_types (retry attempts') (retry attempts)) by done.
    apply attempt_more_le; [lia | done].
  - rewrite (attempt_types (retry attempts') (retry attempts)) by done.
    apply attempt_more_le; [lia | done].
Qed.

(** One attempt against a service that is always unavailable:
    [encode_batch] ends in RuntimeError, not exhausted, and five attempts
    change nothing for it, although [aencode_batch] is exhausted there.
    Two failures fit in three attempts of [aencode_batch], hence in
    five. *)
Lemma more_attempts_same_run_witness :
  encode_batch 5 example_client ["a"]
    (fake_service (reply 503 (JObj [("detail", JStr "Service Unavailable")])))
  = encode_batch 1 example_client ["a"]
      (fake_service (reply 503 (JObj [("detail", JStr "Service Unavailable")])))
  /\ aencode_batch 5 example_client ["a"; "b"] (fails_twice shuffled_body)
     = aencode_batch 3 example_client ["a"; "b"] (fails_twice shuffled_body).
Proof.
  split.
  - apply (proj1 (more_attempts_same_run 1 5 example_client ["a"]
                    (fake_service
                       (reply 503 (JObj [("detail", JStr "Service Unavailable")])))
                    ltac:(lia))).
    intros e H. discriminate H.
  - apply (proj2 (more_attempts_same_run 3 5 example_client ["a"; "b"]
                    (fails_twice shuffled_body) ltac:(lia))).
    intros e H. discriminate H.
Defined.

Lemma py_getitem_error v k e : py_getitem v k = Raise e -> client_error e = true.
Proof.
  destruct v as [| | | | | |kvs]; simpl; try by intros [= <-].
  destruct (assoc k kvs); [discriminate | by intros [= <-]].
Qed.

Lemma rmap_error {A B} (f : A -> result B) xs e :
  rmap f xs = Raise e -> exists x, f x = Raise e.
Proof.
  induction xs as [|x xs IH]; simpl; [discriminate|].
  destruct (f x) as [y|e'|] eqn:Hx; simpl; [| intros [= <-]; by exists x | discriminate].
  destruct (rmap f xs) as [ys|e'|]; simpl; [discriminate | | discriminate].
  intros [= <-]. by apply IH.
Qed.

Lemma py_sorted_error v e :
  py_sorted v (fun x => py_getitem x "index") = Raise e -> client_error e = true.
Proof.
  unfold py_sorted. destruct (py_iter v) as [xs|e'|] eqn:Hiter; simpl.
  - destruct (rmap _ xs) as [ks|e'|] eqn:Hkeys; simpl.
    + destruct (int_keys ks); [discriminate|].
      destruct (length xs <=? 1)%nat; discriminate.
    + intros [= <-]. apply rmap_error in Hkeys as [x Hx].
      by apply py_getitem_error in Hx.
    + discriminate.
  - intros [= <-]. destruct v; simpl in Hiter; try discriminate;
      by injection Hiter as <-.
  - discriminate.
Qed.

Lemma embeddings_of_error v e :
  embeddings_of v = Raise e -> client_error e = true.
Proof.
  unfold embeddings_of.
  destruct (py_contains "data" v) as [has|e'|] eqn:Hin; simpl.
  - destruct has; simpl.
    + destruct (py_getitem v "data") as [data|e'|] eqn:Hdata; simpl.
      * destruct (py_sorted data _) as [s|e'|] eqn:Hs; simpl.
        -- intros [x Hx]%rmap_error. by apply py_getitem_error in Hx.
        -- intros [= <-]. by apply py_sorted_error in Hs.
        -- discriminate.
      * intros [= <-]. by apply py_getitem_error in Hdata.
      * discriminate.
    + destruct (py_getitem v "detail") as [detail|e'|] eqn:Hdetail; simpl.
      * by intros [= <-].
      * intros [= <-]. by apply py_getitem_error in Hdetail.
      * discriminate.
  - intros [= <-]. destruct v; simpl in Hin; try discriminate;
      by injection Hin as <-.
  - discriminate.
Qed.

Lemma embeddings_of_not_transient attempts v :
  transient (retry attempts) (embeddings_of v) = false.
Proof.
  destruct (embeddings_of v) as [embs|e|] eqn:Hout; simpl; try done.
  apply embeddings_of_error in Hout. by destruct e.
Qed.

(** X13: once a response body has been decoded, the call is settled by
    that request, whatever the body holds: [encode_batch] makes exactly
    one request and does not end in RetryExhaustedError, and so does
    [aencode_batch] when the status is below 400.  What the handling of a
    body raises (RuntimeError, KeyError, TypeError) is never retried. *)
Theorem decoded_body_never_retried attempts self texts w r v :
  script w (length (sent w)) = Replies r ->
  json_body r = Ok v ->
  let sync := encode_batch attempts self texts w in
  let async := aencode_batch attempts self texts w in
  invocations w sync = 1%nat
  /\ (forall e, fst sync = Raise e -> client_error e = true)
  /\ (status r < 400 ->
      invocations w async = 1%nat
      /\ (forall e, fst async = Raise e -> client_error e = true)).
Proof.
  intros Hev Hbody sync async.
  destruct (decoded_run attempts self texts w r v Hev Hbody
              (embeddings_of_not_transient attempts v)) as [Hs Ha].
  unfold sync, async. rewrite Hs, invocations_logged. repeat split.
  - intros e. apply embeddings_of_error.
  - by rewrite Ha, invocations_logged.
  - rewrite Ha by done. intros e. apply embeddings_of_error.
Qed.

(** A body whose items cannot even be subscripted. *)
Lemma decoded_body_never_retried_witness :
  invocations (fake_service (reply 200 (JObj [("data", JArr [JInt 1; JInt 2])])))
    (encode_batch 3 example_client ["a"]
       (fake_service (reply 200 (JObj [("data", JArr [JInt 1; JInt 2])])))) = 1%nat.
Proof.
  apply (proj1 (decoded_body_never_retried 3 example_client ["a"]
                  (fake_service (reply 200 (JObj [("data", JArr [JInt 1; JInt 2])])))
                  {| status := 200;
                     json_body := Ok (JObj [("data", JArr [JInt 1; JInt 2])]) |}
                  (JObj [("data", JArr [JInt 1; JInt 2])]) eq_refl eq_refl)).
Defined.

(** X12: when the response met by [encode_batch] and the response met
    by [aencode_batch] decode to the same value, and the latter has a
    status below 400, the two operations have the same outcome, the same
    embeddings or the same error, whatever that value is, and each makes
    exactly one request. *)
Theorem operations_agree_on_decoded attempts self texts w w' r r' v :
  script w (length (sent w)) = Replies r ->
  script w' (length (sent w')) = Replies r' ->
  json_body r = Ok v ->
  json_body r' = Ok v ->
  status r' < 400 ->
  fst (encode_batch attempts self texts w) = fst (aencode_batch attempts self texts w')
  /\ invocations w (encode_batch attempts self texts w) = 1%nat
  /\ invocations w' (aencode_batch attempts self texts w') = 1%nat.
Proof.
  intros Hev Hev' Hbody Hbody' Hst.
  destruct (decoded_run attempts self texts w r v Hev Hbody
              (embeddings_of_not_transient attempts v)) as [Hs _].
  destruct (decoded_run attempts self texts w' r' v Hev' Hbody'
              (embeddings_of_not_transient attempts v)) as [_ Ha].
  rewrite Hs, Ha by done. by rewrite !invocations_logged.
Qed.

(** An item without embedding: both operations raise the same KeyError. *)
Lemma operations_agree_on_decoded_witness :
  fst (encode_batch 3 example_client ["a"]
         (fake_service (reply 200 (JObj [("data", JArr [JObj [("index", JInt 0)]])]))))
  = fst (aencode_batch 3 example_client ["a"]
           (fake_service (reply 200 (JObj [("data", JArr [JObj [("index", JInt 0)]])])))).
Proof.
  apply (proj1 (operations_agree_on_decoded 3 example_client ["a"]
                  (fake_service
                     (reply 200 (JObj [("data", JArr [JObj [("index", JInt 0)]])])))
                  (fake_service
                     (reply 200 (JObj [("data", JArr [JObj [("index", JInt 0)]])])))
                  {| status := 200;
                     json_body := Ok (JObj [("data", JArr [JObj [("index", JInt 0)]])]) |}
                  {| status := 200;
                     json_body := Ok (JObj [("data", JArr [JObj [("index", JInt 0)]])]) |}
                  (JObj [("data", JArr [JObj [("index", JInt 0)]])])
                  eq_refl eq_refl eq_refl eq_refl eq_refl)).
Defined.

Lemma embeddings_of_data kvs kvs' data :
  assoc "data" kvs = Some data ->
  assoc "data" kvs' = Some data ->
  embeddings_of (JObj kvs) = embeddings_of (JObj kvs').
Proof.
  intros H H'. unfold embeddings_of. simpl. by rewrite H, H'.
Qed.

(** X14: of a decoded dict that has [data], only [data] is read: two
    responses with the same [data] give the same outcome, whatever else
    they hold ([detail], [usage], [model], ...). *)
Theorem only_data_is_read attempts self texts w w' r r' kvs kvs' data :
  script w (length (sent w)) = Replies r ->
  script w' (length (sent w')) = Replies r' ->
  json_body r = Ok (JObj kvs) ->
  json_body r' = Ok (JObj kvs') ->
  assoc "data" kvs = Some data ->
  assoc "data" kvs' = Some data ->
  fst (encode_batch attempts self texts w) = fst (encode_batch attempts self texts w')
  /\ (status r < 400 -> status r' < 400 ->
      fst (aencode_batch attempts self texts w)
      = fst (aencode_batch attempts self texts w')).
Proof.
  intros Hev Hev' Hbody Hbody' Hdata Hdata'.
  destruct (decoded_run attempts self texts w r (JObj kvs) Hev Hbody
              (embeddings_of_not_transient attempts _)) as [Hs Ha].
  destruct (decoded_run attempts self texts w' r' (JObj kvs') Hev' Hbody'
              (embeddings_of_not_transient attempts _)) as [Hs' Ha'].
  rewrite Hs, Hs'. simpl. split.
  - by apply (embeddings_of_data kvs kvs' data).
  - intros Hst Hst'. rewrite Ha, Ha' by done. simpl.
    by apply (embeddings_of_data kvs kvs' data).
Qed.

(** The same [data] beside a [detail] and a [usage] entry. *)
Lemma only_data_is_read_witness :
  fst (encode_batch 3 example_client ["a"]
         (fake_service (reply 200
            (JObj [("detail", JStr "ignored");
                   ("data", JArr [JObj [("index", JInt 0); ("embedding", JArr [])]]);
                   ("usage", JObj [("total_tokens", JInt 3)])]))))
  = fst (encode_batch 3 example_client ["a"]
           (fake_service (reply 200
              (JObj [("data", JArr [JObj [("index", JInt 0); ("embedding", JArr [])]])])))).
Proof.
  apply (proj1 (only_data_is_read 3 example_client ["a"]
                  (fake_service (reply 200
                     (JObj [("detail", JStr "ignored");
                            ("data", JArr [JObj [("index", JInt 0); ("embedding", JArr [])]]);
                            ("usage", JObj [("total_tokens", JInt 3)])])))
                  (fake_service (reply 200
                     (JObj [("data",
                             JArr [JObj [("index", JInt 0); ("embedding", JArr [])]])])))
                  {| status := 200;
                     json_body :=
                       Ok (JObj [("detail", JStr "ignored");
                                 ("data",
                                  JArr [JObj [("index", JInt 0); ("embedding", JArr [])]]);
                                 ("usage", JObj [("total_tokens", JInt 3)])]) |}
                  {| status := 200;
                     json_body :=
                       Ok (JObj [("data",
                                  JArr [JObj [("index", JInt 0);
                                              ("embedding", JArr [])]])]) |}
                  [("detail", JStr "ignored");
                   ("data", JArr [JObj [("index", JInt 0); ("embedding", JArr [])]]);
                   ("usage", JObj [("total_tokens", JInt 3)])]
                  [("data", JArr [JObj [("index", JInt 0); ("embedding", JArr [])]])]
                  (JArr [JObj [("index", JInt 0); ("embedding", JArr [])]])
                  eq_refl eq_refl eq_refl eq_refl eq_refl eq_refl)).
Defined.

(** X15: a response with a single item is returned whatever the value of
    its [index] is (a string, a float, null): with one element [sorted]
    compares nothing.  The [index] key must be there all the same. *)
Theorem single_item_any_index attempts self texts w r kvs fields index embedding :
  script w (length (sent w)) = Replies r ->
  json_body r = Ok (JObj kvs) ->
  assoc "data" kvs = Some (JArr [JObj fields]) ->
  assoc "index" fields = Some index ->
  assoc "embedding" fields = Some embedding ->
  fst (encode_batch attempts self texts w) = Ok [embedding]
  /\ (status r < 400 -> fst (aencode_batch attempts self texts w) = Ok [embedding]).
Proof.
  intros Hev Hbody Hdata Hindex Hemb.
  assert (Hout : embeddings_of (JObj kvs) = Ok [embedding]).
  { unfold embeddings_of. simpl. rewrite Hdata. simpl.
    unfold py_sorted. simpl. rewrite Hindex. simpl.
    destruct (int_key index); simpl; by rewrite Hemb. }
  destruct (decoded_run attempts self texts w r (JObj kvs) Hev Hbody) as [Hs Ha].
  { by rewrite Hout. }
  rewrite Hs, Hout. split; [done|]. intros Hst. by rewrite Ha, Hout.
Qed.

Lemma single_item_any_index_witness :
  fst (encode_batch 3 example_client ["a"]
         (fake_service (reply 200
            (JObj [("data", JArr [JObj [("index", JStr "first");
                                        ("embedding", JArr [JFloat 0.5])]])]))))
  = Ok [JArr [JFloat 0.5]].
Proof.
  apply (proj1 (single_item_any_index 3 example_client ["a"]
                  (fake_service (reply 200
                     (JObj [("data", JArr [JObj [("index", JStr "first");
                                                 ("embedding", JArr [JFloat 0.5])]])])))
                  {| status := 200;
                     json_body :=
                       Ok (JObj [("data",
                                  JArr [JObj [("index", JStr "first");
                                              ("embedding", JArr [JFloat 0.5])]])]) |}
                  [("data", JArr [JObj [("index", JStr "first");
                                        ("embedding", JArr [JFloat 0.5])]])]
                  [("index", JStr "first"); ("embedding", JArr [JFloat 0.5])]
                  (JStr "first") (JArr [JFloat 0.5])
                  eq_refl eq_refl eq_refl eq_refl eq_refl)).
Defined.
